(** * generate_index.py: a shallow embedding and its verified properties

    The script scans [site/] for sub-folders, lifts a title and a description
    out of each folder's markdown summary, and writes [site/index.html].

    Python [str] values are modelled by [string]; a character is a code point
    below 256, so the white space of [str.isspace] (and of [\s] in [re]) is
    the set 9-13, 28-32, 133 and 160.  The only line separator the script
    knows is the line feed (code 10). *)

From Stdlib Require Import String Ascii List Bool Arith Lia.
From Stdlib Require Import Sorting.Sorted Sorting.Permutation.
From Stdlib Require Import Numbers.DecimalString.
From Stdlib Require OrderedTypeEx.
Import ListNotations.
Set Warnings "-register-all".
Open Scope list_scope.
Open Scope string_scope.

(* ================================================================== *)
(** * Part I: the program                                              *)
(* ================================================================== *)

(** ** Python [str] primitives *)

Definition nl : ascii := "010"%char.
Definition dq : string := String "034"%char EmptyString.
Definition NL : string := String nl EmptyString.

(** [str.isspace] on one character, which is also the class [\s]. *)
Definition isspace (c : ascii) : bool :=
  let n := nat_of_ascii c in
  (((9 <=? n) && (n <=? 13)) || ((28 <=? n) && (n <=? 32))
   || (n =? 133) || (n =? 160))%nat.

Fixpoint lstrip (s : string) : string :=
  match s with
  | String c s' => if isspace c then lstrip s' else s
  | EmptyString => EmptyString
  end.

Fixpoint rstrip (s : string) : string :=
  match s with
  | String c s' =>
      match rstrip s' with
      | EmptyString => if isspace c then EmptyString else String c EmptyString
      | r => String c r
      end
  | EmptyString => EmptyString
  end.

(** [s.strip()] *)
Definition strip (s : string) : string := rstrip (lstrip s).

(** [s.startswith(p)] *)
Definition startswith (s p : string) : bool := prefix p s.

(** [s.split("\n")]: never empty, one more piece than there are line feeds. *)
Fixpoint split_nl (s : string) : list string :=
  match s with
  | EmptyString => [EmptyString]
  | String c s' =>
      if Ascii.eqb c nl then EmptyString :: split_nl s'
      else match split_nl s' with
           | l :: ls => String c l :: ls
           | [] => [String c EmptyString]
           end
  end.

(** [sep.join(l)] is [String.concat sep l]. *)
Definition join (sep : string) (l : list string) : string :=
  String.concat sep l.

(** Truth value of a string and of a list. *)
Definition truthy (s : string) : bool :=
  match s with EmptyString => false | _ => true end.

Definition nonempty {A : Type} (l : list A) : bool :=
  match l with [] => false | _ => true end.

(** ** A backtracking matcher for the fragment of [re] the script uses

    Greedy [+] over a character class, the anchors [^] and [$] in
    [re.MULTILINE] mode, and one capturing group.  A position is the suffix
    still to be read together with a flag telling whether the position is at
    the start of the text or right after a line feed.  The group is kept as
    the pair of suffixes at its opening and closing parenthesis. *)

Inductive charset : Type :=
| CsChar (a : ascii)   (* a literal character *)
| CsSpace              (* \s *)
| CsDot.               (* .  (anything but a line feed) *)

Inductive re_node : Type :=
| ReBol                  (* ^ *)
| ReEol                  (* $ *)
| ReOne (cs : charset)
| RePlus (cs : charset)  (* cs+ , greedy *)
| ReOpen                 (* ( *)
| ReClose.               (* ) *)

Definition cs_matches (cs : charset) (c : ascii) : bool :=
  match cs with
  | CsChar a => Ascii.eqb a c
  | CsSpace => isspace c
  | CsDot => negb (Ascii.eqb c nl)
  end.

Definition captures : Type := (string * string)%type.

(** [cs+] followed by the continuation [k]: take as many characters as
    possible and give them back one at a time while [k] fails. *)
Fixpoint re_plus (cs : charset) (k : bool -> string -> option captures)
    (s : string) : option captures :=
  match s with
  | String c s' =>
      if cs_matches cs c then
        match re_plus cs k s' with
        | Some g => Some g
        | None => k (Ascii.eqb c nl) s'
        end
      else None
  | EmptyString => None
  end.

Fixpoint re_match (p : list re_node) (bol : bool) (s : string) (g : captures)
    : option captures :=
  match p with
  | [] => Some g
  | ReBol :: p' => if bol then re_match p' bol s g else None
  | ReEol :: p' =>
      match s with
      | EmptyString => re_match p' bol s g
      | String c _ => if Ascii.eqb c nl then re_match p' bol s g else None
      end
  | ReOne cs :: p' =>
      match s with
      | String c s' =>
          if cs_matches cs c then re_match p' (Ascii.eqb c nl) s' g else None
      | EmptyString => None
      end
  | RePlus cs :: p' => re_plus cs (fun bol' s' => re_match p' bol' s' g) s
  | ReOpen :: p' => re_match p' bol s (s, snd g)
  | ReClose :: p' => re_match p' bol s (fst g, s)
  end.

(** [re.search]: the first start position, from the left, with a match. *)
Fixpoint re_search_from (p : list re_node) (bol : bool) (s : string)
    : option captures :=
  match re_match p bol s (EmptyString, EmptyString) with
  | Some g => Some g
  | None =>
      match s with
      | String c s' => re_search_from p (Ascii.eqb c nl) s'
      | EmptyString => None
      end
  end.

Definition re_search (p : list re_node) (s : string) : option captures :=
  re_search_from p true s.

(** [m.group(1)] *)
Definition group1 (g : captures) : string :=
  substring 0 (String.length (fst g) - String.length (snd g)) (fst g).

(** ** parse_markdown: the text part *)

(** The dictionary [parse_markdown] returns. *)
Record info : Type :=
  mk_info { info_title : string; info_description : string }.

(** r"^#\s+(.+)$" *)
Definition title_re : list re_node :=
  [ReBol; ReOne (CsChar "#"); RePlus CsSpace; ReOpen; RePlus CsDot; ReClose;
   ReEol].

(** Lines 17-18; [fallback] is [md_path.parent.name]. *)
Definition extract_title (content fallback : string) : string :=
  match re_search title_re content with
  | Some title_match => strip (group1 title_match)
  | None => fallback
  end.

(** The loop of lines 25-35.  [break] returns the buffer, [continue] and
    falling off the end of the body go on with the next line. *)
Fixpoint description_loop (lines : list string) (in_description : bool)
    (description_lines : list string) : list string :=
  match lines with
  | [] => description_lines
  | line :: rest =>
      let stripped := strip line in
      if startswith stripped "#" then
        if in_description then description_lines
        else description_loop rest true description_lines
      else if in_description && truthy stripped then
        description_loop rest in_description (description_lines ++ [stripped])
      else if in_description && negb (truthy stripped)
              && nonempty description_lines then
        description_lines
      else description_loop rest in_description description_lines
  end.

(** Lines 21-37. *)
Definition extract_description (content : string) : string :=
  let lines := split_nl content in
  let description_lines := description_loop lines false [] in
  if nonempty description_lines then join " " description_lines
  else EmptyString.

Definition parse_content (content fallback : string) : info :=
  {| info_title := extract_title content fallback;
     info_description := extract_description content |}.

(** ** The file system and the effects of the script

    A directory is an association list in the order the operating system
    lists it; a file holds text, or bytes that do not decode as UTF-8. *)

Inductive node : Type :=
| File (data : option string)
| Dir (children : list (string * node)).

Definition path : Type := list string.

(** [p / name], [p.name] and [p.parent] of [pathlib]. *)
Definition path_join (p : path) (name : string) : path := (p ++ [name])%list.
Notation "p // x" := (path_join p x) (at level 40, left associativity).
Definition path_name (p : path) : string := last p EmptyString.
Definition path_parent (p : path) : path := removelast p.
Definition path_str (p : path) : string := String.concat "/" p.

Fixpoint lookup (children : list (string * node)) (name : string)
    : option node :=
  match children with
  | [] => None
  | (x, n) :: rest => if String.eqb x name then Some n else lookup rest name
  end.

Fixpoint resolve (n : node) (p : path) : option node :=
  match p with
  | [] => Some n
  | x :: p' =>
      match n with
      | Dir children =>
          match lookup children x with
          | Some n' => resolve n' p'
          | None => None
          end
      | File _ => None
      end
  end.

Inductive py_error : Type :=
| FileNotFoundError
| NotADirectoryError
| IsADirectoryError
| UnicodeDecodeError.

Inductive result (A : Type) : Type :=
| Ok (a : A)
| Raise (e : py_error).
Arguments Ok {A} a.
Arguments Raise {A} e.

Fixpoint replace_child (children : list (string * node)) (name : string)
    (n : node) : list (string * node) :=
  match children with
  | [] => []
  | (x, m) :: rest =>
      if String.eqb x name then (x, n) :: rest
      else (x, m) :: replace_child rest name n
  end.

(** Opening [p] for writing below [n]: the file is created in an existing
    directory or truncated; nothing else is touched. *)
Fixpoint store (n : node) (p : path) (text : string) : result node :=
  match p with
  | [] =>
      match n with
      | File _ => Ok (File (Some text))
      | Dir _ => Raise IsADirectoryError
      end
  | x :: p' =>
      match n with
      | Dir children =>
          match lookup children x with
          | Some n' =>
              match store n' p' text with
              | Ok n'' => Ok (Dir (replace_child children x n''))
              | Raise e => Raise e
              end
          | None =>
              match p' with
              | [] => Ok (Dir (children ++ [(x, File (Some text))]))
              | _ :: _ => Raise FileNotFoundError
              end
          end
      | File _ => Raise NotADirectoryError
      end
  end.

Inductive event : Type :=
| EvRead (p : path)
| EvWrite (p : path)
| EvPrint (line : string).

(** The working directory of the process and what the run has done so far. *)
Record world : Type := mk_world { fs : node; log : list event }.

Definition M (A : Type) : Type := world -> result A * world.

Definition ret {A : Type} (a : A) : M A := fun w => (Ok a, w).

Definition bind {A B : Type} (c : M A) (k : A -> M B) : M B :=
  fun w =>
    match c w with
    | (Ok a, w') => k a w'
    | (Raise e, w') => (Raise e, w')
    end.

Notation "x <- c1 ;; c2" := (bind c1 (fun x => c2))
  (at level 61, c1 at next level, right associativity).
Notation "c1 ;;; c2" := (bind c1 (fun _ => c2))
  (at level 61, right associativity).

Definition emit (e : event) (w : world) : world :=
  {| fs := fs w; log := (log w ++ [e])%list |}.

Definition is_some {A : Type} (o : option A) : bool :=
  match o with Some _ => true | None => false end.

(** [p.exists()] *)
Definition path_exists (p : path) : M bool :=
  fun w => (Ok (is_some (resolve (fs w) p)), w).

(** [p.is_dir()] *)
Definition is_dir (p : path) : M bool :=
  fun w =>
    (Ok (match resolve (fs w) p with Some (Dir _) => true | _ => false end), w).

(** [p.iterdir()], consumed at once by [sorted]. *)
Definition iterdir (p : path) : M (list path) :=
  fun w =>
    match resolve (fs w) p with
    | Some (Dir children) => (Ok (map (fun c => p // fst c) children), w)
    | Some (File _) => (Raise NotADirectoryError, w)
    | None => (Raise FileNotFoundError, w)
    end.

(** Reading in text mode with the default [newline=None]: a carriage
    return followed by a line feed, and a carriage return alone, come out
    as one line feed. *)
Definition cr : ascii := "013"%char.

Fixpoint universal_newlines (s : string) : string :=
  match s with
  | EmptyString => EmptyString
  | String c s' =>
      if Ascii.eqb c cr then
        match s' with
        | String c' s'' =>
            if Ascii.eqb c' nl then String nl (universal_newlines s'')
            else String nl (universal_newlines s')
        | EmptyString => String nl EmptyString
        end
      else String c (universal_newlines s')
  end.

(** [p.read_text(encoding="utf-8")]; every call is logged. *)
Definition read_text (p : path) : M string :=
  fun w =>
    let w' := emit (EvRead p) w in
    match resolve (fs w) p with
    | Some (File (Some text)) => (Ok (universal_newlines text), w')
    | Some (File None) => (Raise UnicodeDecodeError, w')
    | Some (Dir _) => (Raise IsADirectoryError, w')
    | None => (Raise FileNotFoundError, w')
    end.

(** [p.write_text(text, encoding="utf-8")] on a POSIX system, where line
    feeds are written as they are; only a write that happened is logged.
    Every string of the model encodes as UTF-8, so the write fails only
    where opening the file fails. *)
Definition write_text (p : path) (text : string) : M unit :=
  fun w =>
    match store (fs w) p text with
    | Ok n => (Ok tt, {| fs := n; log := (log w ++ [EvWrite p])%list |})
    | Raise e => (Raise e, w)
    end.

Definition print (line : string) : M unit :=
  fun w => (Ok tt, emit (EvPrint line) w).

(** ** [sorted] on paths

    [pathlib] compares POSIX paths part by part, parts as strings by code
    point.  The sort is stable, as Python's is. *)

Fixpoint path_compare (p q : path) : comparison :=
  match p, q with
  | [], [] => Eq
  | [], _ :: _ => Lt
  | _ :: _, [] => Gt
  | x :: p', y :: q' =>
      match String.compare x y with
      | Eq => path_compare p' q'
      | c => c
      end
  end.

Definition path_leb (p q : path) : bool :=
  match path_compare p q with Gt => false | _ => true end.

Fixpoint insert_sorted (x : path) (l : list path) : list path :=
  match l with
  | [] => [x]
  | y :: l' => if path_leb x y then x :: l else y :: insert_sorted x l'
  end.

Fixpoint sorted (l : list path) : list path :=
  match l with
  | [] => []
  | x :: l' => insert_sorted x (sorted l')
  end.

(** ** parse_markdown and get_subfolders *)

Definition SITE_DIR : path := ["site"].

Definition parse_markdown (md_path : path) : M info :=
  content <- read_text md_path ;;
  ret (parse_content content (path_name (path_parent md_path))).

(** The dictionary once [info["folder"]] is set. *)
Record entry : Type :=
  mk_entry { title : string; description : string; folder : string }.

Definition set_folder (i : info) (name : string) : entry :=
  {| title := info_title i; description := info_description i;
     folder := name |}.

Definition md_names : list string :=
  ["README.md"; "description.md"; "index.md"].

(** Lines 56-61: the inner loop with its [break]. *)
Fixpoint find_md_file (item : path) (names : list string) : M (option path) :=
  match names with
  | [] => ret None
  | md_name :: rest =>
      let candidate := item // md_name in
      present <- path_exists candidate ;;
      if present then ret (Some candidate) else find_md_file item rest
  end.

(** Lines 50-69: one turn of the outer loop. *)
Definition scan_item (item : path) (entries : list entry) : M (list entry) :=
  d <- is_dir item ;;
  if negb d then ret entries
  else if startswith (path_name item) "." then ret entries
  else
    md_file <- find_md_file item md_names ;;
    i <- match md_file with
         | Some f => parse_markdown f
         | None =>
             ret {| info_title := path_name item;
                    info_description := EmptyString |}
         end ;;
    ret (entries ++ [set_folder i (path_name item)])%list.

Fixpoint scan_items (items : list path) (entries : list entry)
    : M (list entry) :=
  match items with
  | [] => ret entries
  | item :: rest =>
      entries' <- scan_item item entries ;;
      scan_items rest entries'
  end.

Definition get_subfolders : M (list entry) :=
  present <- path_exists SITE_DIR ;;
  if negb present then ret []
  else
    items <- iterdir SITE_DIR ;;
    scan_items (sorted items) [].

(** ** generate_html *)

Definition desc_html (e : entry) : string :=
  if truthy (description e)
  then "<p class=" ++ dq ++ "description" ++ dq ++ ">" ++ description e
       ++ "</p>"
  else EmptyString.

(** The f-string of lines 80-87. *)
Definition entry_html (e : entry) : string :=
  NL
  ++ "        <li class=" ++ dq ++ "entry" ++ dq ++ ">" ++ NL
  ++ "            <a href=" ++ dq ++ folder e ++ "/index.html" ++ dq ++ ">"
  ++ NL
  ++ "                <h2>" ++ title e ++ "</h2>" ++ NL
  ++ "                " ++ desc_html e ++ NL
  ++ "            </a>" ++ NL
  ++ "        </li>" ++ NL.

Definition empty_html : string :=
  "<li class=" ++ dq ++ "empty" ++ dq ++ ">No content yet.</li>".

(** Each line of the template before [{entries_html}], braces undoubled. *)
Definition page_head_lines : list string :=
  [ "<!DOCTYPE html>";
    "<html lang=" ++ dq ++ "en" ++ dq ++ ">";
    "<head>";
    "    <meta charset=" ++ dq ++ "UTF-8" ++ dq ++ ">";
    "    <meta name=" ++ dq ++ "viewport" ++ dq ++ " content=" ++ dq
      ++ "width=device-width, initial-scale=1.0" ++ dq ++ ">";
    "    <title>Published Content</title>";
    "    <style>";
    "        :root {";
    "            --bg-color: #f5f5f5;";
    "            --text-color: #333;";
    "            --link-color: #0066cc;";
    "            --card-bg: #fff;";
    "            --border-color: #ddd;";
    "        }";
    "        @media (prefers-color-scheme: dark) {";
    "            :root {";
    "                --bg-color: #1a1a1a;";
    "                --text-color: #e0e0e0;";
    "                --link-color: #6db3f2;";
    "                --card-bg: #2d2d2d;";
    "                --border-color: #444;";
    "            }";
    "        }";
    "        * {";
    "            box-sizing: border-box;";
    "        }";
    "        body {";
    "            font-family: -apple-system, BlinkMacSystemFont, " ++ dq
      ++ "Segoe UI" ++ dq ++ ", Roboto, Helvetica, Arial, sans-serif;";
    "            max-width: 800px;";
    "            margin: 0 auto;";
    "            padding: 2rem;";
    "            background-color: var(--bg-color);";
    "            color: var(--text-color);";
    "            line-height: 1.6;";
    "        }";
    "        h1 {";
    "            border-bottom: 2px solid var(--border-color);";
    "            padding-bottom: 0.5rem;";
    "        }";
    "        ul {";
    "            list-style: none;";
    "            padding: 0;";
    "        }";
    "        .entry {";
    "            margin: 1rem 0;";
    "            padding: 1rem;";
    "            background-color: var(--card-bg);";
    "            border: 1px solid var(--border-color);";
    "            border-radius: 8px;";
    "            transition: box-shadow 0.2s;";
    "        }";
    "        .entry:hover {";
    "            box-shadow: 0 4px 12px rgba(0, 0, 0, 0.15);";
    "        }";
    "        .entry a {";
    "            text-decoration: none;";
    "            color: inherit;";
    "            display: block;";
    "        }";
    "        .entry h2 {";
    "            margin: 0 0 0.5rem 0;";
    "            color: var(--link-color);";
    "            font-size: 1.25rem;";
    "        }";
    "        .description {";
    "            margin: 0;";
    "            color: var(--text-color);";
    "            opacity: 0.8;";
    "        }";
    "        .empty {";
    "            color: var(--text-color);";
    "            opacity: 0.6;";
    "            font-style: italic;";
    "        }";
    "    </style>";
    "</head>";
    "<body>";
    "    <h1>Published Content</h1>";
    "    <ul>" ].

Definition page_tail_lines : list string :=
  [ "    </ul>"; "</body>"; "</html>" ].

Definition page_head : string :=
  Eval vm_compute in
    fold_right (fun l acc => l ++ NL ++ acc) EmptyString page_head_lines.

Definition page_tail : string :=
  Eval vm_compute in
    NL ++ fold_right (fun l acc => l ++ NL ++ acc) EmptyString page_tail_lines.

Definition generate_html (entries : list entry) : string :=
  let entries_html :=
    fold_left (fun acc e => acc ++ entry_html e) entries EmptyString in
  let entries_html :=
    if negb (nonempty entries) then empty_html else entries_html in
  page_head ++ entries_html ++ page_tail.

(** ** main *)

Definition str_of_nat (n : nat) : string :=
  NilEmpty.string_of_uint (Nat.to_uint n).

Definition main : M unit :=
  entries <- get_subfolders ;;
  let html := generate_html entries in
  let output_path := SITE_DIR // "index.html" in
  write_text output_path html ;;;
  print ("Generated " ++ path_str output_path ++ " with "
         ++ str_of_nat (List.length entries) ++ " entries").

(* ================================================================== *)
(** * Part II: the words of the specification and of the proofs        *)
(* ================================================================== *)

Definition no_nl (s : string) : bool :=
  forallb (fun c => negb (Ascii.eqb c nl)) (list_ascii_of_string s).

Definition all_space (s : string) : bool :=
  forallb isspace (list_ascii_of_string s).

(** The lines at which the pattern of the title can start to match: a lone
    [#], or [#] and then a white-space character. *)
Definition h1_start (l : string) : bool :=
  match l with
  | EmptyString => false
  | String a EmptyString => Ascii.eqb a "#"
  | String a (String c _) => Ascii.eqb a "#" && isspace c
  end.

(** The title as the specification words it: the first line made of one or
    more [#], one or more spaces and then text gives its text, trimmed. *)
Fixpoint skip (c : ascii) (s : string) : string :=
  match s with
  | String a s' => if Ascii.eqb a c then skip c s' else s
  | EmptyString => EmptyString
  end.

Definition spec_heading_text (l : string) : option string :=
  match l with
  | String "#" l1 =>
      match skip "#" l1 with
      | String " " l2 =>
          match skip " " l2 with
          | EmptyString => None
          | text => Some text
          end
      | _ => None
      end
  | _ => None
  end.

Fixpoint spec_first_heading (lines : list string) : option string :=
  match lines with
  | [] => None
  | l :: rest =>
      match spec_heading_text l with
      | Some text => Some text
      | None => spec_first_heading rest
      end
  end.

Definition spec_title (content fallback : string) : string :=
  match spec_first_heading (split_nl content) with
  | Some text => strip text
  | None => fallback
  end.

(** The description as the specification words it: a machine that reads one
    line at a time until it stops. *)
Record desc_state : Type :=
  mk_desc_state { in_desc : bool; buffer : list string; stopped : bool }.

Definition spec_desc_step (st : desc_state) (line : string) : desc_state :=
  if stopped st then st
  else
    let trimmed := strip line in
    if startswith trimmed "#" then
      if in_desc st
      then {| in_desc := true; buffer := buffer st; stopped := true |}
      else {| in_desc := true; buffer := buffer st; stopped := false |}
    else if in_desc st && truthy trimmed then
      {| in_desc := true; buffer := (buffer st ++ [trimmed])%list;
         stopped := false |}
    else if in_desc st && negb (truthy trimmed) && nonempty (buffer st) then
      {| in_desc := true; buffer := buffer st; stopped := true |}
    else st.

Definition spec_description (content : string) : string :=
  String.concat " "
    (buffer (fold_left spec_desc_step (split_nl content)
               {| in_desc := false; buffer := []; stopped := false |})).

(** A heading for the description scan, and a line with nothing on it. *)
Definition is_heading (l : string) : bool := startswith (strip l) "#".
Definition is_blank (l : string) : bool := negb (truthy (strip l)).

(** A text in which a later heading comes before any text was collected:
    nothing before the first heading [h1] is a heading, and only blank lines
    stand between [h1] and the later heading [h2]. *)
Definition later_heading_before_text (content : string) : Prop :=
  exists (pre mid post : list string) (h1 h2 : string),
    split_nl content = (pre ++ h1 :: mid ++ h2 :: post)%list
    /\ Forall (fun l => is_heading l = false) pre
    /\ is_heading h1 = true
    /\ Forall (fun l => is_blank l = true) mid
    /\ is_heading h2 = true.

(** What the specification reports as the present behaviour: on some such
    text the capture starts again at the later heading, so that text is
    collected. *)
Definition restarts_at_later_heading : Prop :=
  exists content : string,
    later_heading_before_text content
    /\ extract_description content <> EmptyString.

(** A text with a title heading and nothing else but blank lines. *)
Definition only_title_heading (content : string) : Prop :=
  exists (pre post : list string) (h : string),
    split_nl content = (pre ++ h :: post)%list
    /\ Forall (fun l => is_blank l = true) pre
    /\ is_heading h = true
    /\ Forall (fun l => is_blank l = true) post.

(** Folder names in ascending order, by code point. *)
Definition name_lt (a b : string) : Prop := String.ltb a b = true.
Definition name_le (a b : string) : Prop := String.leb a b = true.

(** The stable sort of [sorted], on names. *)
Fixpoint insert_name (x : string) (l : list string) : list string :=
  match l with
  | [] => [x]
  | y :: l' => if String.leb x y then x :: l else y :: insert_name x l'
  end.

Fixpoint sort_names (l : list string) : list string :=
  match l with
  | [] => []
  | x :: l' => insert_name x (sort_names l')
  end.

(** The first summary file name present in a folder, with what is there. *)
Fixpoint first_present (sub : list (string * node)) (names : list string)
    : option (string * node) :=
  match names with
  | [] => None
  | md :: rest =>
      match lookup sub md with
      | Some nd => Some (md, nd)
      | None => first_present sub rest
      end
  end.

(** Reading a node as text. *)
Definition read_node (nd : node) : result string :=
  match nd with
  | File (Some text) => Ok (universal_newlines text)
  | File None => Raise UnicodeDecodeError
  | Dir _ => Raise IsADirectoryError
  end.

(** A child of the root that the scanner keeps, with its contents. *)
Definition qualifies (children : list (string * node)) (name : string)
    : option (list (string * node)) :=
  match lookup children name with
  | Some (Dir sub) => if startswith name "." then None else Some sub
  | _ => None
  end.

(** What one kept folder contributes: its entry or the error of the read,
    and the reads made. *)
Definition item_outcome (name : string) (sub : list (string * node))
    : result entry * list event :=
  match first_present sub md_names with
  | Some (md, nd) =>
      (match read_node nd with
       | Ok text => Ok (set_folder (parse_content text name) name)
       | Raise e => Raise e
       end,
       [EvRead (SITE_DIR // name // md)])
  | None =>
      (Ok {| title := name; description := EmptyString; folder := name |}, [])
  end.

Fixpoint scan_outcome (children : list (string * node)) (names : list string)
    (acc : list entry) : result (list entry) * list event :=
  match names with
  | [] => (Ok acc, [])
  | n :: rest =>
      match qualifies children n with
      | Some sub =>
          match item_outcome n sub with
          | (Ok e, evs) =>
              let (r, evs') := scan_outcome children rest (acc ++ [e]) in
              (r, (evs ++ evs')%list)
          | (Raise err, evs) => (Raise err, evs)
          end
      | None => scan_outcome children rest acc
      end
  end.

Definition is_write (e : event) : bool :=
  match e with EvWrite _ => true | _ => false end.

Definition is_read (e : event) : bool :=
  match e with EvRead _ => true | _ => false end.

(** Substring test, for what a page contains. *)
Fixpoint contains (needle hay : string) : bool :=
  prefix needle hay
  || match hay with
     | EmptyString => false
     | String _ hay' => contains needle hay'
     end.

(** The summary file as the specification words it: [README.md], then
    [description.md], then [index.md], the first one present. *)
Definition spec_summary (sub : list (string * node)) : option node :=
  match lookup sub "README.md" with
  | Some nd => Some nd
  | None =>
      match lookup sub "description.md" with
      | Some nd => Some nd
      | None => lookup sub "index.md"
      end
  end.

(** [p] is [dir] or lies below it. *)
Definition below (dir p : path) : Prop := exists rest, p = (dir ++ rest)%list.

(** The run added the events [evs], none of which is a write. *)
Definition only_reads (evs : list event) : Prop :=
  Forall (fun ev => is_read ev = true) evs.

(** Sample trees. *)
Definition mixed_children : list (string * node) :=
  [("zeta", Dir []); (".git", Dir []); ("notes.txt", File (Some "n"));
   ("alpha", Dir [])].

Definition mixed_world : world :=
  {| fs := Dir [("site", Dir mixed_children)]; log := [] |}.

Definition docs_children : list (string * node) :=
  [("plain", Dir [("notes.txt", File (Some "n"))]);
   ("docs", Dir [("index.md", File (Some ("# Index" ++ NL ++ "low")));
                 ("description.md",
                  File (Some ("# Described" ++ NL ++ "About it.")))])].

Definition docs_world : world :=
  {| fs := Dir [("site", Dir docs_children)]; log := [] |}.

(** A summary with the line ends of other systems, and a folder with no
    summary at all. *)
Definition crlf_children : list (string * node) :=
  [("plain", Dir [("notes.txt", File (Some "n"))]);
   ("win", Dir [("index.md", File (Some "# Low"));
                ("description.md",
                 File (Some ("# T" ++ String cr NL ++ String cr NL
                             ++ "body " ++ String cr "more"
                             ++ String cr NL)))])].

Definition crlf_world : world :=
  {| fs := Dir [("site", Dir crlf_children)]; log := [] |}.

(** A tree in which [site/index.html] is a directory. *)
Definition index_dir_world : world :=
  {| fs := Dir [("site", Dir [("a", Dir []); ("index.html", Dir [])])];
     log := [] |}.

(** One folder whose summary does not decode, after one that is fine. *)
Definition broken_children : list (string * node) :=
  [("good", Dir [("README.md", File (Some "# Good"))]);
   ("bad", Dir [("README.md", File None)])].

Definition broken_world : world :=
  {| fs := Dir [("site", Dir broken_children)]; log := [] |}.

(** A folder in which [README.md] is a directory, next to a readable
    [description.md]. *)
Definition readme_dir_world : world :=
  {| fs := Dir [("site",
                 Dir [("proj",
                       Dir [("README.md", Dir []);
                            ("description.md", File (Some "# Proj"))])])];
     log := [] |}.

(** The parts of a list item that the specification names. *)
Definition link_open (folder_name : string) : string :=
  "<a href=" ++ dq ++ folder_name ++ "/index.html" ++ dq ++ ">".

Definition heading (text : string) : string := "<h2>" ++ text ++ "</h2>".

Definition paragraph (text : string) : string :=
  "<p class=" ++ dq ++ "description" ++ dq ++ ">" ++ text ++ "</p>".

(** The list item of an entry: the link around the heading and, when the
    description is not empty, the paragraph. *)
Definition spec_item (e : entry) : string :=
  "<li class=" ++ dq ++ "entry" ++ dq ++ ">" ++ NL
  ++ "            " ++ link_open (folder e) ++ NL
  ++ "                " ++ heading (title e) ++ NL
  ++ "                "
  ++ match description e with
     | EmptyString => EmptyString
     | _ => paragraph (description e)
     end ++ NL
  ++ "            </a>" ++ NL
  ++ "        </li>".

(** [s] holds the character [a]. *)
Fixpoint has_char (a : ascii) (s : string) : bool :=
  match s with
  | EmptyString => false
  | String c s' => Ascii.eqb c a || has_char a s'
  end.

(** [s] holds [a] right before [b]; [s] ends with [a]; [s] starts with [b]. *)
Fixpoint has_pair (a b : ascii) (s : string) : bool :=
  match s with
  | String x (String y _ as s') =>
      (Ascii.eqb x a && Ascii.eqb y b) || has_pair a b s'
  | _ => false
  end.

Fixpoint ends_with (a : ascii) (s : string) : bool :=
  match s with
  | EmptyString => false
  | String x EmptyString => Ascii.eqb x a
  | String _ s' => ends_with a s'
  end.

Definition starts_with (b : ascii) (s : string) : bool :=
  match s with
  | String y _ => Ascii.eqb y b
  | EmptyString => false
  end.

Definition items_html (entries : list entry) : string :=
  fold_right (fun e acc => entry_html e ++ acc) EmptyString entries.

Definition demo_entry : entry :=
  {| title := "Proj One"; description := "A demo."; folder := "proj1" |}.

(** The fixed text of an item around the folder and the title, when there
    is no paragraph. *)
Definition item_a : string :=
  "<li class=" ++ dq ++ "entry" ++ dq ++ ">" ++ NL
  ++ "            <a href=" ++ dq.

Definition item_b : string :=
  "/index.html" ++ dq ++ ">" ++ NL ++ "                <h2>".

Definition item_c : string :=
  "</h2>" ++ NL ++ "                " ++ NL ++ "            </a>" ++ NL
  ++ "        </li>".

(** Helpers of the proofs about the pattern: the next character is not in
    the class; the position is at the end of a line. *)
Definition head_fails (cs : charset) (s : string) : Prop :=
  match s with
  | String c _ => cs_matches cs c = false
  | EmptyString => True
  end.

Definition at_eol (rest : string) : Prop :=
  rest = EmptyString \/ exists rest', rest = String nl rest'.

(** The content from a position on does not begin with [#] and white space. *)
Definition starts_h1 (s : string) : bool :=
  match s with
  | String a (String c _) => Ascii.eqb a "#" && isspace c
  | _ => false
  end.

(** The world after a run that added the events [evs] and wrote nothing. *)
Definition with_log (w : world) (evs : list event) : world :=
  {| fs := fs w; log := (log w ++ evs)%list |}.

(** The line [main] prints. *)
Definition summary_line (entries : list entry) : string :=
  "Generated " ++ path_str (SITE_DIR // "index.html") ++ " with "
  ++ str_of_nat (List.length entries) ++ " entries".

(** A line the description scan collects: neither a heading nor blank. *)
Definition is_text (l : string) : bool :=
  negb (is_heading l) && negb (is_blank l).

(** What ends a paragraph: the end of the text, a blank line or a heading. *)
Definition paragraph_end (tail : list string) : Prop :=
  match tail with
  | [] => True
  | stop :: _ => is_blank stop = true \/ is_heading stop = true
  end.

(** A string that [strip] leaves as it is, on either side. *)
Definition tidy (s : string) : Prop := lstrip s = s /\ rstrip s = s.

(** What the description scan buffers: a trimmed, non-empty piece of one
    line. *)
Definition buffered (s : string) : Prop :=
  s <> EmptyString /\ tidy s /\ no_nl s = true.

(** Lines of white space, each with its line feed, and what follows a line
    in the text: nothing, or a line feed and the later lines. *)
Definition ws_block (mid : list string) : string :=
  fold_right (fun m acc => m ++ NL ++ acc) EmptyString mid.

Definition after_line (post : list string) : string :=
  match post with
  | [] => EmptyString
  | _ :: _ => NL ++ String.concat NL post
  end.

(** The test of the scanner on a child name, as a truth value. *)
Definition kept (children : list (string * node)) (name : string) : bool :=
  is_some (qualifies children name).

(** The path of the page. *)
Definition index_path : path := SITE_DIR // "index.html".

(** The children of [site/] once the page is written among them. *)
Definition with_index (children : list (string * node)) (text : string)
    : list (string * node) :=
  match lookup children "index.html" with
  | Some _ => replace_child children "index.html" (File (Some text))
  | None => (children ++ [("index.html", File (Some text))])%list
  end.

(** Every kept folder has a summary file that reads as text, or none. *)
Definition summaries_readable (children : list (string * node)) : Prop :=
  forall name sub nd,
    lookup children name = Some (Dir sub) ->
    startswith name "." = false ->
    spec_summary sub = Some nd ->
    exists text, nd = File (Some text).

(* ================================================================== *)
(** * Part III: proofs                                                  *)
(* ================================================================== *)

(** ** Strings *)

Lemma append_nil_r (s : string) : s ++ EmptyString = s.
Proof. induction s; simpl; congruence. Qed.

Lemma append_assoc (a b c : string) : (a ++ b) ++ c = a ++ (b ++ c).
Proof. induction a; simpl; congruence. Qed.

Lemma split_nl_nonempty (s : string) : split_nl s <> [].
Proof.
  induction s as [|c s IH]; simpl; [discriminate|].
  destruct (Ascii.eqb c nl); [discriminate|].
  destruct (split_nl s); discriminate.
Qed.

Lemma concat_cons (sep l : string) (ls : list string) :
  ls <> [] -> String.concat sep (l :: ls) = l ++ sep ++ String.concat sep ls.
Proof. destruct ls; [congruence | reflexivity]. Qed.

Lemma join_split_nl (s : string) : String.concat NL (split_nl s) = s.
Proof.
  induction s as [|c s IH]; [reflexivity|].
  simpl split_nl. destruct (Ascii.eqb c nl) eqn:E.
  - apply Ascii.eqb_eq in E. subst c.
    rewrite concat_cons by apply split_nl_nonempty.
    rewrite IH. reflexivity.
  - pose proof (split_nl_nonempty s) as NE.
    destruct (split_nl s) as [|l ls]; [congruence|].
    destruct ls as [|l' ls].
    + simpl in *. congruence.
    + rewrite concat_cons by discriminate.
      rewrite concat_cons in IH by discriminate.
      rewrite <- IH. reflexivity.
Qed.

Lemma split_nl_no_nl (s : string) :
  Forall (fun l => no_nl l = true) (split_nl s).
Proof.
  induction s as [|c s IH]; simpl.
  - constructor; [reflexivity | constructor].
  - destruct (Ascii.eqb c nl) eqn:E.
    + constructor; [reflexivity | exact IH].
    + pose proof (split_nl_nonempty s) as NE.
      destruct (split_nl s) as [|l ls]; [congruence|].
      inversion IH; subst. constructor; [|assumption].
      unfold no_nl in *. simpl. rewrite E. simpl. assumption.
Qed.

Lemma length_append (a b : string) :
  String.length (a ++ b) = String.length a + String.length b.
Proof. induction a; simpl; congruence. Qed.

Lemma substring_whole_prefix (a b : string) :
  substring 0 (String.length a) (a ++ b) = a.
Proof. induction a; simpl; [destruct b; reflexivity | congruence]. Qed.

Lemma group1_split (t rest : string) : group1 (t ++ rest, rest) = t.
Proof.
  unfold group1. simpl fst. simpl snd. rewrite length_append.
  replace (String.length t + String.length rest - String.length rest)
    with (String.length t) by lia.
  apply substring_whole_prefix.
Qed.

Lemma no_nl_cons (c : ascii) (s : string) :
  no_nl (String c s) = negb (Ascii.eqb c nl) && no_nl s.
Proof. reflexivity. Qed.

Lemma all_space_cons (c : ascii) (s : string) :
  all_space (String c s) = isspace c && all_space s.
Proof. reflexivity. Qed.

Lemma isspace_nl : isspace nl = true.
Proof. reflexivity. Qed.

(** A line splits into its leading white space and the rest. *)
Lemma lstrip_split (r : string) :
  exists w, r = w ++ lstrip r /\ all_space w = true.
Proof.
  induction r as [|c r [w [E W]]].
  - exists EmptyString. split; reflexivity.
  - simpl. destruct (isspace c) eqn:S.
    + exists (String c w). split.
      * simpl. congruence.
      * rewrite all_space_cons, S, W. reflexivity.
    + exists EmptyString. split; reflexivity.
Qed.

Lemma lstrip_head (r : string) :
  match lstrip r with
  | String c _ => isspace c = false
  | EmptyString => all_space r = true
  end.
Proof.
  induction r as [|c r IH]; simpl; [reflexivity|].
  destruct (isspace c) eqn:S.
  - destruct (lstrip r); [rewrite all_space_cons, S; assumption | assumption].
  - assumption.
Qed.

Lemma lstrip_idem (r : string) : lstrip (lstrip r) = lstrip r.
Proof.
  pose proof (lstrip_head r) as H.
  destruct (lstrip r) as [|c t]; [reflexivity|].
  simpl. rewrite H. reflexivity.
Qed.

Lemma lstrip_no_nl (r : string) : no_nl r = true -> no_nl (lstrip r) = true.
Proof.
  induction r as [|c r IH]; simpl; [trivial|].
  rewrite no_nl_cons. intros H. apply andb_prop in H as [H1 H2].
  destruct (isspace c); [auto|].
  rewrite no_nl_cons, H1, H2. reflexivity.
Qed.

Lemma lstrip_all_space (w t : string) :
  all_space w = true -> lstrip (w ++ t) = lstrip t.
Proof.
  induction w as [|c w IH]; simpl; [trivial|].
  rewrite all_space_cons. intros H. apply andb_prop in H as [H1 H2].
  rewrite H1. auto.
Qed.

(** ** The title pattern *)

Lemma re_plus_stuck cs k s : head_fails cs s -> re_plus cs k s = None.
Proof. destruct s; simpl; [trivial|]. intros ->. reflexivity. Qed.

(** Greedy [+]: when the continuation accepts right after the longest run,
    that is the match. *)
Lemma re_plus_greedy cs k (w s : string) (r : captures) :
  w <> EmptyString ->
  forallb (cs_matches cs) (list_ascii_of_string w) = true ->
  head_fails cs s ->
  (forall b, k b s = Some r) ->
  re_plus cs k (w ++ s) = Some r.
Proof.
  intros NE W HS K. induction w as [|a w IH]; [congruence|].
  simpl in W. apply andb_prop in W as [Wa Ww].
  simpl. rewrite Wa.
  destruct w as [|a' w'].
  - simpl. rewrite (re_plus_stuck cs k s HS). apply K.
  - rewrite IH; [reflexivity | discriminate | assumption].
Qed.

Lemma title_match_here (w t rest : string) (g : captures) :
  w <> EmptyString -> all_space w = true ->
  t <> EmptyString -> head_fails CsSpace t -> no_nl t = true ->
  at_eol rest ->
  re_match title_re true (String "#" (w ++ t ++ rest)) g
  = Some (t ++ rest, rest).
Proof.
  intros Wne W Tne Th Tn R.
  unfold title_re. cbn [re_match]. cbn [cs_matches]. rewrite Ascii.eqb_refl.
  apply re_plus_greedy.
  - exact Wne.
  - exact W.
  - destruct t as [|c t']; [congruence|]. exact Th.
  - intros b'. cbn [re_match].
    apply re_plus_greedy.
    + exact Tne.
    + exact Tn.
    + destruct R as [-> | [rest' ->]]; simpl; [trivial | reflexivity].
    + intros b''. cbn [re_match fst snd].
      destruct R as [-> | [rest' ->]]; [reflexivity|].
      rewrite Ascii.eqb_refl. reflexivity.
Qed.

Lemma title_no_match_mid (s : string) (g : captures) :
  re_match title_re false s g = None.
Proof. reflexivity. Qed.

Lemma title_no_match_start (b : bool) (s : string) (g : captures) :
  starts_h1 s = false -> re_match title_re b s g = None.
Proof.
  intros H. destruct b; [|reflexivity].
  unfold title_re. cbn [re_match cs_matches].
  destruct s as [|a s]; [reflexivity|].
  rewrite Ascii.eqb_sym.
  destruct (Ascii.eqb a "#") eqn:E; [|reflexivity].
  destruct s as [|c s]; [reflexivity|].
  simpl in H. rewrite E in H. simpl in H.
  apply re_plus_stuck. exact H.
Qed.

Lemma search_skip_line (l rest : string) :
  no_nl l = true ->
  re_search_from title_re false (l ++ String nl rest)
  = re_search_from title_re true rest.
Proof.
  induction l as [|c l IH]; intros H.
  - simpl append. cbn [re_search_from]. rewrite title_no_match_mid.
    rewrite Ascii.eqb_refl. reflexivity.
  - rewrite no_nl_cons in H. apply andb_prop in H as [H1 H2].
    simpl append. cbn [re_search_from]. rewrite title_no_match_mid.
    apply negb_true_iff in H1. rewrite H1. auto.
Qed.

Lemma search_skip_last (l : string) :
  no_nl l = true -> re_search_from title_re false l = None.
Proof.
  induction l as [|c l IH]; intros H.
  - reflexivity.
  - rewrite no_nl_cons in H. apply andb_prop in H as [H1 H2].
    cbn [re_search_from]. rewrite title_no_match_mid.
    apply negb_true_iff in H1. rewrite H1. auto.
Qed.

Lemma h1_start_starts (l rest : string) :
  h1_start l = false -> starts_h1 (l ++ String nl rest) = false.
Proof.
  destruct l as [|a [|c l]]; simpl; intros H.
  - destruct rest; reflexivity.
  - rewrite H. reflexivity.
  - exact H.
Qed.

Lemma h1_start_starts_last (l : string) :
  h1_start l = false -> starts_h1 l = false.
Proof. destruct l as [|a [|c l]]; simpl; auto. Qed.

Lemma search_next_line (l rest : string) :
  no_nl l = true -> h1_start l = false ->
  re_search_from title_re true (l ++ String nl rest)
  = re_search_from title_re true rest.
Proof.
  intros N H.
  pose proof (title_no_match_start true _ (EmptyString, EmptyString)
                (h1_start_starts l rest H)) as F.
  destruct l as [|c l].
  - simpl append in *. cbn [re_search_from]. rewrite F.
    rewrite Ascii.eqb_refl. reflexivity.
  - rewrite no_nl_cons in N. apply andb_prop in N as [N1 N2].
    simpl append in *. cbn [re_search_from]. rewrite F.
    apply negb_true_iff in N1. rewrite N1.
    apply search_skip_line. assumption.
Qed.

Lemma search_last_line (l : string) :
  no_nl l = true -> h1_start l = false ->
  re_search_from title_re true l = None.
Proof.
  intros N H.
  pose proof (title_no_match_start true _ (EmptyString, EmptyString)
                (h1_start_starts_last l H)) as F.
  destruct l as [|c l].
  - reflexivity.
  - rewrite no_nl_cons in N. apply andb_prop in N as [N1 N2].
    cbn [re_search_from]. rewrite F.
    apply negb_true_iff in N1. rewrite N1.
    apply search_skip_last. assumption.
Qed.

Lemma search_lines_none (lines : list string) :
  Forall (fun l => no_nl l = true) lines ->
  Forall (fun l => h1_start l = false) lines ->
  re_search_from title_re true (String.concat NL lines) = None.
Proof.
  induction lines as [|l ls IH]; intros N H; [reflexivity|].
  inversion N; subst. inversion H; subst.
  destruct ls as [|l' ls'].
  - simpl. apply search_last_line; assumption.
  - rewrite concat_cons by discriminate. simpl (NL ++ _).
    rewrite search_next_line by assumption. apply IH; assumption.
Qed.

Lemma search_lines_skip (pre rest : list string) :
  rest <> [] ->
  Forall (fun l => no_nl l = true) pre ->
  Forall (fun l => h1_start l = false) pre ->
  re_search_from title_re true (String.concat NL (pre ++ rest))
  = re_search_from title_re true (String.concat NL rest).
Proof.
  intros R. induction pre as [|l ls IH]; intros N H; [reflexivity|].
  inversion N; subst. inversion H; subst.
  simpl app. rewrite concat_cons by (destruct ls; [exact R | discriminate]).
  simpl (NL ++ _). rewrite search_next_line by assumption.
  apply IH; assumption.
Qed.

Lemma search_heading_line (c : ascii) (r : string) (post : list string) :
  isspace c = true -> all_space r = false -> no_nl (String c r) = true ->
  exists rest,
    re_search_from title_re true
      (String.concat NL (String "#" (String c r) :: post))
    = Some (lstrip r ++ rest, rest).
Proof.
  intros C A N.
  set (rest := match post with
               | [] => EmptyString
               | _ :: _ => NL ++ String.concat NL post
               end).
  assert (R : at_eol rest).
  { unfold rest. destruct post; [left; reflexivity|].
    right. eexists. reflexivity. }
  assert (E : String.concat NL (String "#" (String c r) :: post)
              = String "#" (String c r ++ rest)).
  { unfold rest. destruct post as [|l' ls'].
    - simpl. rewrite append_nil_r. reflexivity.
    - rewrite concat_cons by discriminate. reflexivity. }
  exists rest. rewrite E.
  destruct (lstrip_split r) as [w [Er W]].
  pose proof (lstrip_head r) as Hd.
  rewrite no_nl_cons in N. apply andb_prop in N as [N1 N2].
  assert (M : re_match title_re true
                (String "#" (String c w ++ lstrip r ++ rest))
                (EmptyString, EmptyString)
              = Some (lstrip r ++ rest, rest)).
  { apply title_match_here; try assumption.
    - discriminate.
    - rewrite all_space_cons, C, W. reflexivity.
    - destruct (lstrip r); [congruence | discriminate].
    - destruct (lstrip r); [exact I | exact Hd].
    - apply lstrip_no_nl. exact N2. }
  replace (String c r ++ rest) with (String c w ++ lstrip r ++ rest).
  - destruct (String c w ++ lstrip r ++ rest) eqn:X;
      cbn [re_search_from]; rewrite M; reflexivity.
  - rewrite <- append_assoc. simpl. rewrite <- Er. reflexivity.
Qed.

Lemma Forall_app_l {A : Type} (P : A -> Prop) (l1 l2 : list A) :
  Forall P (l1 ++ l2) -> Forall P l1.
Proof. intros H. apply Forall_app in H. tauto. Qed.

Lemma Forall_app_r {A : Type} (P : A -> Prop) (l1 l2 : list A) :
  Forall P (l1 ++ l2) -> Forall P l2.
Proof. intros H. apply Forall_app in H. tauto. Qed.

(** The title of a text whose first line where the pattern can start is a
    [#], white space and then text. *)
Lemma title_of_h1_line (content fallback : string) (pre post : list string)
    (c : ascii) (r : string) :
  split_nl content = (pre ++ String "#" (String c r) :: post)%list ->
  Forall (fun p => h1_start p = false) pre ->
  isspace c = true -> all_space r = false ->
  extract_title content fallback = strip r.
Proof.
  intros S P C A.
  pose proof (split_nl_no_nl content) as N. rewrite S in N.
  pose proof (Forall_app_l _ _ _ N) as Npre.
  pose proof (Forall_app_r _ _ _ N) as Nl. inversion Nl; subst.
  unfold extract_title, re_search.
  rewrite <- (join_split_nl content) at 1. rewrite S.
  rewrite search_lines_skip by (assumption || discriminate).
  destruct (search_heading_line c r post C A) as [rest ->]; [assumption|].
  rewrite group1_split. unfold strip. rewrite lstrip_idem. reflexivity.
Qed.

(** The title of a text no line of which lets the pattern start. *)
Lemma title_is_fallback (content fallback : string) :
  Forall (fun l => h1_start l = false) (split_nl content) ->
  extract_title content fallback = fallback.
Proof.
  intros H. unfold extract_title, re_search.
  rewrite <- (join_split_nl content) at 1.
  rewrite search_lines_none; [reflexivity | apply split_nl_no_nl | exact H].
Qed.

Lemma prefix_empty (s : string) : prefix EmptyString s = true.
Proof. destruct s; reflexivity. Qed.

Lemma startswith_hash (s : string) :
  startswith s "#" = match s with
                     | String a _ => Ascii.eqb a "#"
                     | EmptyString => false
                     end.
Proof.
  unfold startswith. destruct s as [|a s]; [reflexivity|].
  cbn [prefix]. destruct (ascii_dec "#" a) as [<- | NE].
  - rewrite prefix_empty. reflexivity.
  - symmetry. apply Ascii.eqb_neq. congruence.
Qed.

Lemma no_hash_no_h1 (l : string) :
  startswith l "#" = false -> h1_start l = false.
Proof.
  rewrite startswith_hash. destruct l as [|a [|c l]]; simpl; auto.
  intros ->. reflexivity.
Qed.

(** ** Claims about the title *)

(** C1 (as amended).  The pattern is one [#], white space and text: the
    title is the text, trimmed, that follows the [#] on the first line made
    of exactly one [#], at least one white-space character and something
    that is not white space, provided no earlier line is a lone [#] or
    starts with [#] and white space; when no line at all is a lone [#] or
    starts with [#] and white space, the title is the fallback. *)
Theorem title_first_h1 (content fallback : string) :
  (forall (pre post : list string) (c : ascii) (r : string),
      split_nl content = (pre ++ String "#" (String c r) :: post)%list ->
      Forall (fun p => h1_start p = false) pre ->
      isspace c = true -> all_space r = false ->
      extract_title content fallback = strip r)
  /\ (Forall (fun l => h1_start l = false) (split_nl content) ->
      extract_title content fallback = fallback).
Proof.
  split.
  - intros. eapply title_of_h1_line; eassumption.
  - apply title_is_fallback.
Qed.

Lemma title_first_h1_witness :
  extract_title ("intro" ++ NL ++ "## Sub" ++ NL ++ "#  Guide  " ++ NL ++ "x")
    "fb" = "Guide"
  /\ extract_title ("intro" ++ NL ++ "## Sub") "fb" = "fb".
Proof.
  split.
  - apply (proj1 (title_first_h1 _ "fb") ["intro"; "## Sub"] ["x"] " "%char
             " Guide  ").
    + reflexivity.
    + repeat constructor.
    + reflexivity.
    + reflexivity.
  - apply (proj2 (title_first_h1 ("intro" ++ NL ++ "## Sub") "fb")).
    repeat constructor.
Defined.

(** C1 as the specification words it fails: a line of two [#] is a heading
    for the specification and is no title for the program. *)
Lemma title_h2_counterexample :
  spec_title "## Sub" "fb" = "Sub"
  /\ extract_title "## Sub" "fb" = "fb"
  /\ extract_title "## Sub" "fb" <> spec_title "## Sub" "fb".
Proof. repeat split. vm_compute. discriminate. Qed.

(** C8 (as amended).  When the text holds a line [# Title] with [Title]
    not blank, and no earlier line is a lone [#] or begins with [#] and
    white space, the title is [Title] trimmed, whatever the fallback; when
    no line begins with [#], the title is the fallback. *)
Theorem title_of_first_hash_line (content fallback : string) :
  (forall (pre post : list string) (t : string),
      split_nl content = (pre ++ ("# " ++ t)%string :: post)%list ->
      Forall (fun p => h1_start p = false) pre ->
      all_space t = false ->
      extract_title content fallback = strip t)
  /\ (Forall (fun l => startswith l "#" = false) (split_nl content) ->
      extract_title content fallback = fallback).
Proof.
  split.
  - intros pre post t S P A.
    rewrite (title_of_h1_line content fallback pre post " "%char t S).
    + reflexivity.
    + exact P.
    + reflexivity.
    + exact A.
  - intros H. apply title_is_fallback.
    eapply Forall_impl; [|exact H]. apply no_hash_no_h1.
Qed.

Lemma title_of_first_hash_line_witness :
  extract_title ("## Sub" ++ NL ++ "#tag" ++ NL ++ "text" ++ NL
                 ++ "# My Title " ++ NL ++ "# Other") "fb"
  = "My Title"
  /\ extract_title ("plain" ++ NL ++ "text") "fb" = "fb".
Proof.
  split.
  - apply (proj1 (title_of_first_hash_line _ "fb")
             ["## Sub"; "#tag"; "text"] ["# Other"] "My Title ").
    + reflexivity.
    + repeat constructor.
    + reflexivity.
  - apply (proj2 (title_of_first_hash_line ("plain" ++ NL ++ "text") "fb")).
    repeat constructor.
Defined.

(** C8 as stated fails: the text holds the line [# B], and its title is
    that of the earlier heading. *)
Lemma title_later_line_counterexample :
  In ("# " ++ "B") (split_nl ("# A" ++ NL ++ "# B"))
  /\ extract_title ("# A" ++ NL ++ "# B") "fb" = "A"
  /\ extract_title ("# A" ++ NL ++ "# B") "fb" <> strip "B".
Proof.
  split; [right; left; reflexivity|].
  split; [reflexivity|]. vm_compute. discriminate.
Qed.

(** ** The description scan *)

Lemma spec_desc_stopped (lines : list string) (st : desc_state) :
  stopped st = true -> fold_left spec_desc_step lines st = st.
Proof.
  induction lines as [|l ls IH]; intros H; [reflexivity|].
  simpl. unfold spec_desc_step at 2. rewrite H. auto.
Qed.

(** The machine of the specification and the loop of the program keep the
    same buffer. *)
Lemma spec_desc_loop (lines : list string) (st : desc_state) :
  stopped st = false ->
  buffer (fold_left spec_desc_step lines st)
  = description_loop lines (in_desc st) (buffer st).
Proof.
  revert st. induction lines as [|l ls IH]; intros st H; [reflexivity|].
  cbn [fold_left description_loop]. unfold spec_desc_step at 2. rewrite H.
  destruct (startswith (strip l) "#") eqn:Hh.
  - destruct (in_desc st) eqn:Hd.
    + rewrite spec_desc_stopped by reflexivity. reflexivity.
    + rewrite IH by reflexivity. reflexivity.
  - destruct (in_desc st) eqn:Hd; cbn [andb].
    + destruct (truthy (strip l)) eqn:Ht; cbn [negb andb].
      * rewrite IH by reflexivity. reflexivity.
      * destruct (nonempty (buffer st)) eqn:Hb.
        -- rewrite spec_desc_stopped by reflexivity. reflexivity.
        -- rewrite IH by assumption. rewrite Hd. reflexivity.
    + rewrite IH by assumption. rewrite Hd. reflexivity.
Qed.

Lemma nonempty_join (l : list string) :
  (if nonempty l then join " " l else EmptyString) = String.concat " " l.
Proof. destruct l; reflexivity. Qed.

Lemma description_is_spec (content : string) :
  extract_description content = spec_description content.
Proof.
  unfold extract_description, spec_description.
  rewrite nonempty_join. rewrite spec_desc_loop by reflexivity. reflexivity.
Qed.

(** A heading met while in the description ends the scan, whatever the
    buffer holds and whatever follows. *)
Lemma loop_stops_at_heading (h : string) (rest buf : list string) :
  is_heading h = true -> description_loop (h :: rest) true buf = buf.
Proof.
  unfold is_heading. intros H. cbn [description_loop]. rewrite H.
  reflexivity.
Qed.

Lemma blank_not_heading (l : string) :
  is_blank l = true -> is_heading l = false.
Proof.
  unfold is_blank, is_heading. destruct (strip l); [reflexivity | discriminate].
Qed.

(** Blank lines leave an empty buffer empty. *)
Lemma loop_skips_blank (mid rest : list string) (b : bool) :
  Forall (fun l => is_blank l = true) mid ->
  description_loop (mid ++ rest) b [] = description_loop rest b [].
Proof.
  induction mid as [|l ls IH]; intros H; [reflexivity|].
  inversion H as [|? ? Hl Hls]; subst.
  simpl app. cbn [description_loop].
  pose proof (blank_not_heading l Hl) as Hh. unfold is_heading in Hh.
  rewrite Hh. unfold is_blank in Hl. apply negb_true_iff in Hl. rewrite Hl.
  rewrite !andb_false_r. cbn [negb andb nonempty]. auto.
Qed.

(** Before the first heading every line is passed over. *)
Lemma loop_skips_preamble (pre rest : list string) :
  Forall (fun l => is_heading l = false) pre ->
  description_loop (pre ++ rest) false [] = description_loop rest false [].
Proof.
  induction pre as [|l ls IH]; intros H; [reflexivity|].
  inversion H as [|? ? Hl Hls]; subst.
  simpl app. cbn [description_loop]. unfold is_heading in Hl. rewrite Hl.
  cbn [andb]. auto.
Qed.

Lemma loop_all_blank (post : list string) (b : bool) :
  Forall (fun l => is_blank l = true) post ->
  description_loop post b [] = [].
Proof.
  intros H. rewrite <- (app_nil_r post).
  rewrite loop_skips_blank by assumption. reflexivity.
Qed.

Lemma description_later_heading (content : string) :
  later_heading_before_text content ->
  extract_description content = EmptyString.
Proof.
  intros (pre & mid & post & h1 & h2 & S & Hpre & Hh1 & Hmid & Hh2).
  unfold extract_description. rewrite S.
  rewrite loop_skips_preamble by assumption.
  cbn [description_loop]. unfold is_heading in Hh1. rewrite Hh1.
  rewrite loop_skips_blank by assumption.
  rewrite loop_stops_at_heading by assumption. reflexivity.
Qed.

(** ** Claims about the description *)

(** C2.  The description is the one the machine of the specification
    produces (first heading sets the flag, later non-blank lines are
    buffered trimmed, a blank line after buffered text or a further heading
    stops, the buffer is joined by single spaces); the sample text gives
    "Line one. Line two."; a text with only a title heading gives "". *)
Theorem description_state_machine :
  (forall content : string,
      extract_description content = spec_description content)
  /\ extract_description
       ("# T" ++ NL ++ NL ++ "Line one." ++ NL ++ "Line two." ++ NL ++ NL
        ++ "Ignored.")
     = "Line one. Line two."
  /\ (forall content : string,
         only_title_heading content ->
         extract_description content = EmptyString).
Proof.
  split; [exact description_is_spec|]. split; [reflexivity|].
  intros content (pre & post & h & S & Hpre & Hh & Hpost).
  unfold extract_description. rewrite S.
  rewrite loop_skips_preamble.
  - cbn [description_loop]. unfold is_heading in Hh. rewrite Hh.
    rewrite loop_all_blank by assumption. reflexivity.
  - eapply Forall_impl; [|exact Hpre]. apply blank_not_heading.
Qed.

Lemma description_state_machine_witness :
  extract_description (NL ++ "# Only a title" ++ NL ++ "  " ++ NL)
  = EmptyString.
Proof.
  apply (proj2 (proj2 description_state_machine)).
  exists [EmptyString], ["  "; EmptyString], "# Only a title".
  split; [reflexivity|]. split; [repeat constructor|].
  split; [reflexivity|]. repeat constructor.
Defined.

(** C3 (as amended).  A later heading met before any text was collected
    stops the scan for good: the description is empty, and no line after
    that heading is ever looked at. *)
Theorem later_heading_stops_scan :
  (forall content : string,
      later_heading_before_text content ->
      extract_description content = EmptyString)
  /\ (forall (h : string) (rest rest' buf : list string),
         is_heading h = true ->
         description_loop (h :: rest) true buf
         = description_loop (h :: rest') true buf).
Proof.
  split; [exact description_later_heading|].
  intros h rest rest' buf H. rewrite !loop_stops_at_heading by assumption.
  reflexivity.
Qed.

Lemma later_heading_stops_scan_witness :
  extract_description ("# T" ++ NL ++ NL ++ "## Sub" ++ NL ++ "text")
  = EmptyString
  /\ description_loop ["## Sub"; "text"] true []
     = description_loop ["## Sub"; "other"; "lines"] true [].
Proof.
  split.
  - apply (proj1 later_heading_stops_scan).
    exists [], [EmptyString], ["text"], "# T", "## Sub".
    split; [reflexivity|]. split; [constructor|]. split; [reflexivity|].
    split; [repeat constructor | reflexivity].
  - apply (proj2 later_heading_stops_scan). reflexivity.
Defined.

(** C3 as stated fails: on no text does a later heading, met before any
    text was collected, start the capture again. *)
Lemma no_restart_at_later_heading : ~ restarts_at_later_heading.
Proof.
  intros (content & L & N). apply N. apply description_later_heading. exact L.
Qed.

(** ** Order on names and the sort *)

Lemma name_lt_iff (a b : string) :
  name_lt a b <-> OrderedTypeEx.String_as_OT.lt a b.
Proof.
  unfold name_lt, String.ltb.
  rewrite <- OrderedTypeEx.String_as_OT.cmp_lt.
  unfold OrderedTypeEx.String_as_OT.cmp.
  destruct (String.compare a b); split; congruence.
Qed.

Lemma name_le_iff (a b : string) : name_le a b <-> a = b \/ name_lt a b.
Proof.
  unfold name_le, name_lt, String.leb, String.ltb.
  destruct (String.compare a b) eqn:E.
  - apply String.compare_eq_iff in E. tauto.
  - tauto.
  - split; [discriminate|]. intros [-> | H]; [|discriminate].
    assert (X : String.compare b b = Eq)
      by (apply OrderedTypeEx.String_as_OT.cmp_eq; reflexivity).
    congruence.
Qed.

Lemma name_lt_trans (a b c : string) :
  name_lt a b -> name_lt b c -> name_lt a c.
Proof.
  rewrite !name_lt_iff. apply OrderedTypeEx.String_as_OT.lt_trans.
Qed.

Lemma name_le_trans (a b c : string) :
  name_le a b -> name_le b c -> name_le a c.
Proof.
  rewrite !name_le_iff. intros [-> | H1] [-> | H2]; auto.
  right. eapply name_lt_trans; eassumption.
Qed.

Lemma name_le_flip (a b : string) : String.leb a b = false -> name_le b a.
Proof.
  intros H. destruct (String.leb_total a b) as [T | T]; [congruence | exact T].
Qed.

Lemma insert_name_perm (x : string) (l : list string) :
  Permutation (insert_name x l) (x :: l).
Proof.
  induction l as [|y l IH]; simpl; [reflexivity|].
  destruct (String.leb x y); [reflexivity|].
  rewrite IH. apply perm_swap.
Qed.

Lemma sort_names_perm (l : list string) : Permutation (sort_names l) l.
Proof.
  induction l as [|x l IH]; simpl; [reflexivity|].
  rewrite insert_name_perm. constructor. exact IH.
Qed.

Lemma insert_name_sorted (x : string) (l : list string) :
  StronglySorted name_le l -> StronglySorted name_le (insert_name x l).
Proof.
  induction l as [|y l IH]; intros S; simpl.
  - repeat constructor.
  - inversion S as [|? ? Sl Hy]; subst.
    destruct (String.leb x y) eqn:E.
    + constructor; [exact S|]. constructor; [exact E|].
      eapply Forall_impl; [|exact Hy]. intros z Hz.
      eapply name_le_trans; [exact E | exact Hz].
    + constructor; [apply IH; exact Sl|].
      eapply Permutation_Forall;
        [symmetry; apply insert_name_perm|].
      constructor; [apply name_le_flip; exact E | exact Hy].
Qed.

Lemma sort_names_sorted (l : list string) :
  StronglySorted name_le (sort_names l).
Proof.
  induction l as [|x l IH]; simpl; [constructor|].
  apply insert_name_sorted. exact IH.
Qed.

Lemma sorted_nodup_strict (l : list string) :
  StronglySorted name_le l -> NoDup l -> StronglySorted name_lt l.
Proof.
  induction 1 as [|x l S IH Hx]; intros N; [constructor|].
  inversion N as [|? ? Nx Nl]; subst.
  constructor; [apply IH; exact Nl|].
  rewrite Forall_forall in *. intros y Hy.
  destruct (proj1 (name_le_iff x y) (Hx y Hy)) as [-> | L]; [tauto | exact L].
Qed.

Lemma filter_sorted {A : Type} (R : A -> A -> Prop) (f : A -> bool)
    (l : list A) :
  StronglySorted R l -> StronglySorted R (filter f l).
Proof.
  induction 1 as [|x l S IH Hx]; simpl; [constructor|].
  destruct (f x); [|exact IH].
  constructor; [exact IH|].
  rewrite Forall_forall in *. intros y Hy.
  apply filter_In in Hy. apply Hx. tauto.
Qed.

Lemma path_leb_site (a b : string) :
  path_leb (SITE_DIR // a) (SITE_DIR // b) = String.leb a b.
Proof.
  unfold path_leb, String.leb, SITE_DIR, path_join. simpl.
  destruct (String.compare a b); reflexivity.
Qed.

Lemma insert_sorted_site (x : string) (l : list string) :
  insert_sorted (SITE_DIR // x) (map (path_join SITE_DIR) l)
  = map (path_join SITE_DIR) (insert_name x l).
Proof.
  induction l as [|y l IH]; [reflexivity|].
  cbn [map insert_sorted insert_name]. rewrite path_leb_site.
  destruct (String.leb x y); [reflexivity|].
  cbn [map]. rewrite IH. reflexivity.
Qed.

(** Sorting the children of [site/] as paths sorts their names. *)
Lemma sorted_site (l : list string) :
  sorted (map (path_join SITE_DIR) l) = map (path_join SITE_DIR) (sort_names l).
Proof.
  induction l as [|x l IH]; [reflexivity|].
  cbn [map sorted sort_names]. rewrite IH. apply insert_sorted_site.
Qed.

(** ** The file system *)

Lemma resolve_snoc (p : path) (n : node) (x : string) :
  resolve n (p // x)
  = match resolve n p with
    | Some (Dir children) => lookup children x
    | _ => None
    end.
Proof.
  unfold path_join. revert n. induction p as [|y p IH]; intros n.
  - simpl. destruct n as [d | children]; [reflexivity|].
    destruct (lookup children x) as [[d | c]|]; reflexivity.
  - simpl. destruct n as [d | children]; [reflexivity|].
    destruct (lookup children y); [apply IH | reflexivity].
Qed.

Lemma path_name_join (p : path) (x : string) : path_name (p // x) = x.
Proof. unfold path_name, path_join. apply last_last. Qed.

Lemma path_parent_join (p : path) (x : string) : path_parent (p // x) = p.
Proof. unfold path_parent, path_join. apply removelast_last. Qed.

Lemma lookup_in (children : list (string * node)) (x : string) (n : node) :
  lookup children x = Some n -> In (x, n) children.
Proof.
  induction children as [|[y m] l IH]; simpl; [discriminate|].
  destruct (String.eqb_spec y x) as [-> | NE].
  - intros [= ->]. left. reflexivity.
  - intros H. right. auto.
Qed.

Lemma in_lookup (children : list (string * node)) (x : string) (n : node) :
  NoDup (map fst children) -> In (x, n) children -> lookup children x = Some n.
Proof.
  induction children as [|[y m] l IH]; simpl; intros N H; [contradiction|].
  inversion N as [|? ? Ny Nl]; subst.
  destruct H as [[= -> ->] | H].
  - rewrite String.eqb_refl. reflexivity.
  - destruct (String.eqb_spec y x) as [-> | NE]; [|auto].
    exfalso. apply Ny. change x with (fst (x, n)). apply in_map. exact H.
Qed.

(** ** The scanner against its outcome *)

Lemma with_log_nil (w : world) : with_log w [] = w.
Proof. destruct w. unfold with_log. simpl. rewrite app_nil_r. reflexivity. Qed.

Lemma with_log_app (w : world) (e1 e2 : list event) :
  with_log (with_log w e1) e2 = with_log w (e1 ++ e2).
Proof. unfold with_log. simpl. rewrite app_assoc. reflexivity. Qed.

Lemma find_md_file_outcome (item : path) (sub : list (string * node))
    (names : list string) (w : world) :
  resolve (fs w) item = Some (Dir sub) ->
  find_md_file item names w
  = (Ok (match first_present sub names with
         | Some (md, _) => Some (item // md)
         | None => None
         end), w).
Proof.
  intros R. induction names as [|md rest IH]; [reflexivity|].
  cbn [find_md_file first_present]. unfold bind, path_exists.
  rewrite resolve_snoc, R.
  destruct (lookup sub md); [reflexivity | exact IH].
Qed.

Lemma parse_markdown_outcome (item : path) (sub : list (string * node))
    (md : string) (nd : node) (w : world) :
  resolve (fs w) item = Some (Dir sub) ->
  lookup sub md = Some nd ->
  parse_markdown (item // md) w
  = (match read_node nd with
     | Ok text => Ok (parse_content text (path_name item))
     | Raise e => Raise e
     end, with_log w [EvRead (item // md)]).
Proof.
  intros R L. unfold parse_markdown, bind, read_text.
  rewrite resolve_snoc, R, L, path_parent_join.
  destruct nd as [[text|] | c]; reflexivity.
Qed.

Lemma first_present_lookup (sub : list (string * node)) (names : list string)
    (md : string) (nd : node) :
  first_present sub names = Some (md, nd) ->
  In md names /\ lookup sub md = Some nd.
Proof.
  induction names as [|x rest IH]; simpl; [discriminate|].
  destruct (lookup sub x) eqn:L.
  - intros [= -> ->]. auto.
  - intros H. destruct (IH H). auto.
Qed.

Lemma scan_item_outcome (children : list (string * node)) (name : string)
    (acc : list entry) (w : world) :
  resolve (fs w) SITE_DIR = Some (Dir children) ->
  scan_item (SITE_DIR // name) acc w
  = match qualifies children name with
    | Some sub =>
        (match fst (item_outcome name sub) with
         | Ok e => Ok (acc ++ [e])%list
         | Raise err => Raise err
         end, with_log w (snd (item_outcome name sub)))
    | None => (Ok acc, w)
    end.
Proof.
  intros R. unfold scan_item, qualifies.
  unfold bind at 1. unfold is_dir. rewrite resolve_snoc, R.
  rewrite path_name_join.
  destruct (lookup children name) as [[d | sub]|] eqn:L; try reflexivity.
  cbn [negb]. destruct (startswith name ".") eqn:Dot; [reflexivity|].
  assert (Rsub : resolve (fs w) (SITE_DIR // name) = Some (Dir sub))
    by (rewrite resolve_snoc, R; exact L).
  unfold bind at 1. rewrite (find_md_file_outcome _ sub _ _ Rsub).
  unfold item_outcome.
  destruct (first_present sub md_names) as [[md nd]|] eqn:F.
  - destruct (first_present_lookup _ _ _ _ F) as [_ Lmd].
    unfold bind at 1.
    rewrite (parse_markdown_outcome _ sub md nd w Rsub Lmd).
    rewrite path_name_join. cbn [fst snd].
    destruct (read_node nd); reflexivity.
  - unfold bind, ret. cbn [fst snd]. rewrite with_log_nil. reflexivity.
Qed.

Lemma scan_items_outcome (children : list (string * node))
    (names : list string) (acc : list entry) (w : world) :
  resolve (fs w) SITE_DIR = Some (Dir children) ->
  scan_items (map (path_join SITE_DIR) names) acc w
  = (fst (scan_outcome children names acc),
     with_log w (snd (scan_outcome children names acc))).
Proof.
  revert acc w. induction names as [|n rest IH]; intros acc w R.
  - simpl. unfold ret. rewrite with_log_nil. reflexivity.
  - cbn [map scan_items scan_outcome]. unfold bind.
    rewrite (scan_item_outcome children n acc w R).
    destruct (qualifies children n) as [sub|]; [|apply IH; exact R].
    destruct (item_outcome n sub) as [[e | err] evs]; cbn [fst snd].
    + rewrite IH by exact R.
      destruct (scan_outcome children rest (acc ++ [e])) as [r evs'].
      cbn [fst snd]. rewrite with_log_app. reflexivity.
    + reflexivity.
Qed.

(** The whole scan, when the root is a directory. *)
Lemma get_subfolders_outcome (children : list (string * node)) (w : world) :
  resolve (fs w) SITE_DIR = Some (Dir children) ->
  get_subfolders w
  = (fst (scan_outcome children (sort_names (map fst children)) []),
     with_log w
       (snd (scan_outcome children (sort_names (map fst children)) []))).
Proof.
  intros R. unfold get_subfolders, bind, path_exists, iterdir. rewrite R.
  cbn [is_some negb]. rewrite R.
  rewrite <- (map_map fst (path_join SITE_DIR)).
  rewrite sorted_site. apply scan_items_outcome. exact R.
Qed.

Lemma get_subfolders_missing (w : world) :
  resolve (fs w) SITE_DIR = None -> get_subfolders w = (Ok [], w).
Proof.
  intros R. unfold get_subfolders, bind, path_exists. rewrite R. reflexivity.
Qed.

(** ** What the outcome of a scan holds *)

Lemma item_outcome_folder (name : string) (sub : list (string * node))
    (e : entry) (evs : list event) :
  item_outcome name sub = (Ok e, evs) -> folder e = name.
Proof.
  unfold item_outcome.
  destruct (first_present sub md_names) as [[md nd]|].
  - destruct (read_node nd); intros [= <- _]; reflexivity.
  - intros [= <- _]. reflexivity.
Qed.

Lemma first_present_spec (sub : list (string * node)) :
  match first_present sub md_names with
  | Some (_, nd) => spec_summary sub = Some nd
  | None => spec_summary sub = None
  end.
Proof.
  unfold spec_summary, md_names. cbn [first_present].
  destruct (lookup sub "README.md"); [reflexivity|].
  destruct (lookup sub "description.md"); [reflexivity|].
  destruct (lookup sub "index.md"); reflexivity.
Qed.

Lemma item_outcome_reads (name : string) (sub : list (string * node)) :
  Forall (fun ev => exists md nd,
              ev = EvRead (SITE_DIR // name // md)
              /\ first_present sub md_names = Some (md, nd))
         (snd (item_outcome name sub)).
Proof.
  unfold item_outcome.
  destruct (first_present sub md_names) as [[md nd]|]; cbn [snd].
  - constructor; [|constructor]. exists md, nd. auto.
  - constructor.
Qed.

(** Every event of a scan is the read of the summary file of a kept folder. *)
Lemma scan_outcome_reads (children : list (string * node))
    (names : list string) (acc : list entry) :
  Forall (fun ev => exists n sub md nd,
              ev = EvRead (SITE_DIR // n // md)
              /\ qualifies children n = Some sub
              /\ first_present sub md_names = Some (md, nd))
         (snd (scan_outcome children names acc)).
Proof.
  revert acc. induction names as [|n rest IH]; intros acc.
  - constructor.
  - cbn [scan_outcome]. destruct (qualifies children n) as [sub|] eqn:Q;
      [|apply IH].
    pose proof (item_outcome_reads n sub) as Hn.
    assert (Hn' : Forall (fun ev => exists n sub md nd,
                     ev = EvRead (SITE_DIR // n // md)
                     /\ qualifies children n = Some sub
                     /\ first_present sub md_names = Some (md, nd))
                    (snd (item_outcome n sub))).
    { eapply Forall_impl; [|exact Hn]. intros ev (md & nd & E & F).
      exists n, sub, md, nd. auto. }
    destruct (item_outcome n sub) as [[e | err] evs]; cbn [snd] in *.
    + specialize (IH (acc ++ [e])%list).
      destruct (scan_outcome children rest (acc ++ [e])) as [r evs'].
      cbn [snd] in *. apply Forall_app. auto.
    + exact Hn'.
Qed.

Lemma scan_outcome_only_reads (children : list (string * node))
    (names : list string) (acc : list entry) :
  only_reads (snd (scan_outcome children names acc)).
Proof.
  eapply Forall_impl; [|apply scan_outcome_reads].
  intros ev (n & sub & md & nd & -> & _). reflexivity.
Qed.

(** The folders of a scan that succeeded: the kept names, in their order. *)
Lemma scan_outcome_folders (children : list (string * node))
    (names : list string) (acc entries : list entry) (evs : list event) :
  scan_outcome children names acc = (Ok entries, evs) ->
  map folder entries
  = (map folder acc
     ++ filter (fun n => is_some (qualifies children n)) names)%list.
Proof.
  revert acc evs. induction names as [|n rest IH]; intros acc evs.
  - simpl. intros [= <- _]. rewrite app_nil_r. reflexivity.
  - cbn [scan_outcome filter].
    destruct (qualifies children n) as [sub|] eqn:Q; cbn [is_some];
      [|apply IH].
    destruct (item_outcome n sub) as [[e | err] evs0] eqn:O; [|discriminate].
    destruct (scan_outcome children rest (acc ++ [e])) as [r evs'] eqn:S.
    intros [= -> _]. rewrite (IH _ _ S).
    rewrite map_app. cbn [map]. rewrite (item_outcome_folder _ _ _ _ O).
    rewrite <- app_assoc. reflexivity.
Qed.

(** Where the entries of a scan that succeeded come from. *)
Lemma scan_outcome_entries (children : list (string * node))
    (names : list string) (acc entries : list entry) (evs : list event) :
  scan_outcome children names acc = (Ok entries, evs) ->
  forall e, In e entries ->
    In e acc
    \/ exists n sub evs0,
         In n names /\ qualifies children n = Some sub
         /\ item_outcome n sub = (Ok e, evs0).
Proof.
  revert acc evs. induction names as [|n rest IH]; intros acc evs.
  - simpl. intros [= <- _] e H. left. exact H.
  - cbn [scan_outcome].
    destruct (qualifies children n) as [sub|] eqn:Q.
    + destruct (item_outcome n sub) as [[e0 | err] evs0] eqn:O; [|discriminate].
      destruct (scan_outcome children rest (acc ++ [e0])) as [r evs'] eqn:S.
      intros [= -> _] e H.
      destruct (IH _ _ S e H) as [Hin | (n' & sub' & evs1 & I & Q' & O')].
      * apply in_app_or in Hin as [Hin | [<- | []]]; [left; exact Hin|].
        right. exists n, sub, evs0. simpl. auto.
      * right. exists n', sub', evs1. simpl. auto.
    + intros S e H.
      destruct (IH _ _ S e H) as [Hin | (n' & sub' & evs1 & I & Q' & O')].
      * left. exact Hin.
      * right. exists n', sub', evs1. simpl. auto.
Qed.

(** An error in the read of any kept folder makes the scan fail. *)
Lemma scan_outcome_raises (children : list (string * node))
    (names : list string) (acc : list entry) (name : string)
    (sub : list (string * node)) (err : py_error) :
  In name names -> qualifies children name = Some sub ->
  fst (item_outcome name sub) = Raise err ->
  exists e, fst (scan_outcome children names acc) = Raise e.
Proof.
  intros I Q F. revert acc. induction names as [|n rest IH]; intros acc;
    [contradiction|].
  cbn [scan_outcome]. destruct I as [-> | I].
  - rewrite Q. destruct (item_outcome name sub) as [[e | err'] evs];
      cbn [fst] in *; [discriminate|]. eauto.
  - destruct (qualifies children n) as [sub'|]; [|apply IH; exact I].
    destruct (item_outcome n sub') as [[e | err'] evs]; cbn [fst]; [|eauto].
    destruct (IH I (acc ++ [e])%list) as [e' He'].
    destruct (scan_outcome children rest (acc ++ [e])). cbn [fst] in *. eauto.
Qed.

Lemma qualifies_lookup (children : list (string * node)) (name : string)
    (sub : list (string * node)) :
  qualifies children name = Some sub
  <-> lookup children name = Some (Dir sub) /\ startswith name "." = false.
Proof.
  unfold qualifies.
  destruct (lookup children name) as [[d | c]|];
    try (split; [discriminate | intros [[=] _]]).
  destruct (startswith name ".").
  - split; [discriminate | intros [_ [=]]].
  - split; [intros [= ->]; auto | intros [[= ->] _]; reflexivity].
Qed.

Lemma lookup_in_names (children : list (string * node)) (name : string)
    (nd : node) :
  lookup children name = Some nd -> In name (sort_names (map fst children)).
Proof.
  intros L. apply (Permutation_in _ (Permutation_sym (sort_names_perm _))).
  change name with (fst (name, nd)). apply in_map. apply lookup_in. exact L.
Qed.

(** ** Writing the page *)

Lemma lookup_replace_child (children : list (string * node)) (x : string)
    (n m : node) :
  lookup children x = Some m -> lookup (replace_child children x n) x = Some n.
Proof.
  induction children as [|[y k] l IH]; simpl; [discriminate|].
  destruct (String.eqb y x) eqn:E; simpl; rewrite E; auto.
Qed.

Lemma lookup_app_new (children : list (string * node)) (x : string) (n : node) :
  lookup children x = None -> lookup (children ++ [(x, n)]) x = Some n.
Proof.
  induction children as [|[y k] l IH]; simpl.
  - rewrite String.eqb_refl. reflexivity.
  - destruct (String.eqb y x); [discriminate | exact IH].
Qed.

(** After a write that succeeded the file holds the text. *)
Lemma store_resolve (p : path) (n n' : node) (text : string) :
  store n p text = Ok n' -> resolve n' p = Some (File (Some text)).
Proof.
  revert n n'. induction p as [|x p IH]; intros n n'.
  - simpl. destruct n; [intros [= <-]; reflexivity | discriminate].
  - simpl. destruct n as [d | children]; [discriminate|].
    destruct (lookup children x) as [m|] eqn:L.
    + destruct (store m p text) as [n''|e] eqn:S; [|discriminate].
      intros [= <-]. simpl.
      rewrite (lookup_replace_child _ _ n'' _ L). eapply IH. exact S.
    + destruct p; [|discriminate]. intros [= <-]. simpl.
      rewrite (lookup_app_new _ _ _ L). reflexivity.
Qed.

(** A file cannot be created in a directory that is not there. *)
Lemma store_missing_site (n : node) (x text : string) :
  resolve n SITE_DIR = None ->
  store n (SITE_DIR // x) text
  = Raise (match n with
           | Dir _ => FileNotFoundError
           | File _ => NotADirectoryError
           end).
Proof.
  unfold SITE_DIR, path_join. simpl.
  destruct n as [d | children]; [reflexivity|].
  destruct (lookup children "site"); [discriminate | reflexivity].
Qed.

Lemma main_outcome (w : world) :
  main w
  = match get_subfolders w with
    | (Ok entries, w1) =>
        match store (fs w1) (SITE_DIR // "index.html") (generate_html entries)
        with
        | Ok n =>
            (Ok tt,
             {| fs := n;
                log := (log w1 ++ [EvWrite (SITE_DIR // "index.html")]
                        ++ [EvPrint (summary_line entries)])%list |})
        | Raise e => (Raise e, w1)
        end
    | (Raise e, w1) => (Raise e, w1)
    end.
Proof.
  unfold main, bind. destruct (get_subfolders w) as [[entries | e] w1];
    [|reflexivity].
  unfold write_text.
  destruct (store (fs w1) (SITE_DIR // "index.html") (generate_html entries));
    [|reflexivity].
  unfold print, emit, summary_line. cbn [fs log].
  rewrite <- app_assoc. reflexivity.
Qed.

(** The scan only reads: it leaves the files as they are. *)
Lemma get_subfolders_world (w : world) :
  exists evs, snd (get_subfolders w) = with_log w evs /\ only_reads evs.
Proof.
  destruct (resolve (fs w) SITE_DIR) as [[d | children]|] eqn:R.
  - exists []. split; [|constructor].
    unfold get_subfolders, bind, path_exists, iterdir. rewrite R.
    cbn [is_some negb]. rewrite R. cbn [snd]. symmetry. apply with_log_nil.
  - rewrite (get_subfolders_outcome children w R). cbn [snd].
    eexists. split; [reflexivity | apply scan_outcome_only_reads].
  - rewrite (get_subfolders_missing w R). exists []. cbn [snd].
    split; [symmetry; apply with_log_nil | constructor].
Qed.

(** A read that fails for the summary file chosen in some kept folder makes
    the whole run fail, with reads only behind it. *)
Lemma main_raises_on_failed_read (w : world)
    (children sub : list (string * node)) (name : string) (nd : node)
    (err : py_error) :
  resolve (fs w) SITE_DIR = Some (Dir children) ->
  lookup children name = Some (Dir sub) ->
  startswith name "." = false ->
  spec_summary sub = Some nd ->
  read_node nd = Raise err ->
  exists e evs,
    get_subfolders w = (Raise e, with_log w evs)
    /\ main w = (Raise e, with_log w evs)
    /\ only_reads evs.
Proof.
  intros R L D Sp Rd.
  pose proof (proj2 (qualifies_lookup children name sub) (conj L D)) as Q.
  assert (F : fst (item_outcome name sub) = Raise err).
  { unfold item_outcome. pose proof (first_present_spec sub) as P.
    destruct (first_present sub md_names) as [[md nd']|]; [|congruence].
    assert (nd' = nd) by congruence. subst nd'.
    cbn [fst]. rewrite Rd. reflexivity. }
  destruct (scan_outcome_raises children (sort_names (map fst children)) []
              name sub err (lookup_in_names _ _ _ L) Q F) as [e He].
  exists e. eexists. rewrite main_outcome.
  rewrite (get_subfolders_outcome children w R). rewrite He.
  split; [reflexivity|]. split; [reflexivity|].
  apply scan_outcome_only_reads.
Qed.

(** ** Claims about the scanner and the run *)

(** C4, on the program as it is.  When [site] does not exist the scanner
    returns the empty list without an error and the page rendered from it
    is the placeholder page, but the write of [site/index.html] then raises
    and nothing is written; when [site] is a regular file the scanner
    itself raises. *)
Theorem missing_root_run (w : world) :
  (resolve (fs w) SITE_DIR = None ->
   get_subfolders w = (Ok [], w)
   /\ contains "No content yet." (generate_html []) = true
   /\ contains ("<li class=" ++ dq ++ "entry" ++ dq) (generate_html []) = false
   /\ main w
      = (Raise (match fs w with
                | Dir _ => FileNotFoundError
                | File _ => NotADirectoryError
                end), w))
  /\ (forall d, resolve (fs w) SITE_DIR = Some (File d) ->
      get_subfolders w = (Raise NotADirectoryError, w)
      /\ main w = (Raise NotADirectoryError, w)).
Proof.
  split.
  - intros R. pose proof (get_subfolders_missing w R) as G.
    split; [exact G|]. split; [vm_compute; reflexivity|].
    split; [vm_compute; reflexivity|].
    rewrite main_outcome, G.
    rewrite (store_missing_site (fs w) "index.html" (generate_html []) R).
    reflexivity.
  - intros d R.
    assert (G : get_subfolders w = (Raise NotADirectoryError, w)).
    { unfold get_subfolders, bind, path_exists, iterdir. rewrite R.
      cbn [is_some negb]. rewrite R. reflexivity. }
    split; [exact G|]. rewrite main_outcome, G. reflexivity.
Qed.

Lemma missing_root_run_witness :
  main {| fs := Dir []; log := [] |}
  = (Raise FileNotFoundError, {| fs := Dir []; log := [] |})
  /\ get_subfolders {| fs := Dir [("site", File (Some "x"))]; log := [] |}
     = (Raise NotADirectoryError,
        {| fs := Dir [("site", File (Some "x"))]; log := [] |}).
Proof.
  split.
  - apply (proj1 (missing_root_run {| fs := Dir []; log := [] |}) eq_refl).
  - apply (proj2 (missing_root_run
                    {| fs := Dir [("site", File (Some "x"))]; log := [] |})
             (Some "x") eq_refl).
Defined.

(** C5.  When the scan succeeds on a root directory, the folders of the
    entries are exactly the child directories whose name does not begin
    with a dot, in strictly ascending order of name; folders b, a, c come
    out as a, b, c. *)
Theorem scanner_sorted_folders :
  (forall (w w' : world) (entries : list entry)
          (children : list (string * node)),
      resolve (fs w) SITE_DIR = Some (Dir children) ->
      NoDup (map fst children) ->
      get_subfolders w = (Ok entries, w') ->
      (forall name,
          In name (map folder entries)
          <-> exists sub, In (name, Dir sub) children
                          /\ startswith name "." = false)
      /\ StronglySorted name_lt (map folder entries))
  /\ (exists entries w',
         get_subfolders
           {| fs := Dir [("site", Dir [("b", Dir []); ("a", Dir []);
                                       ("c", Dir [])])];
              log := [] |} = (Ok entries, w')
         /\ map folder entries = ["a"; "b"; "c"]).
Proof.
  split.
  - intros w w' entries children R N G.
    rewrite (get_subfolders_outcome children w R) in G.
    destruct (scan_outcome children (sort_names (map fst children)) [])
      as [r evs] eqn:S.
    cbn [fst snd] in G. injection G as -> _.
    rewrite (scan_outcome_folders _ _ _ _ _ S). cbn [map app].
    split.
    + intros name. rewrite filter_In. split.
      * intros [_ Q]. destruct (qualifies children name) as [sub|] eqn:Q';
          [|discriminate].
        apply qualifies_lookup in Q' as [L D].
        exists sub. split; [apply lookup_in; exact L | exact D].
      * intros (sub & I & D).
        pose proof (in_lookup _ _ _ N I) as L.
        split; [eapply lookup_in_names; exact L|].
        rewrite (proj2 (qualifies_lookup children name sub) (conj L D)).
        reflexivity.
    + apply filter_sorted. apply sorted_nodup_strict.
      * apply sort_names_sorted.
      * eapply Permutation_NoDup; [|exact N].
        symmetry. apply sort_names_perm.
  - eexists. eexists. split; reflexivity.
Qed.

Lemma scanner_sorted_folders_witness :
  exists entries w',
    get_subfolders mixed_world = (Ok entries, w')
    /\ (In ".git" (map folder entries)
        <-> exists sub,
              In (".git", Dir sub) mixed_children
              /\ startswith ".git" "." = false)
    /\ StronglySorted name_lt (map folder entries).
Proof.
  eexists. eexists. split; [reflexivity|].
  assert (N : NoDup (map fst mixed_children)).
  { repeat constructor; simpl; intros H;
      repeat (destruct H as [H | H]; try discriminate H); exact H. }
  destruct (proj1 scanner_sorted_folders mixed_world _ _ mixed_children
              eq_refl N eq_refl) as [Hin Hs].
  split; [apply Hin | exact Hs].
Defined.

(** C6.  For a kept folder the scan yields an entry with the folder's name
    as [folder]; any such entry holds the title and description extracted
    from the text of the first present file among [README.md],
    [description.md], [index.md], as text mode reads it (line ends made
    line feeds), with the folder's name as fallback, or the folder's name
    and the empty description when none is present, in which case nothing
    below the folder is read. *)
Theorem scanner_summary_choice (w w' : world) (entries : list entry)
    (children sub : list (string * node)) (name : string) :
  resolve (fs w) SITE_DIR = Some (Dir children) ->
  lookup children name = Some (Dir sub) ->
  startswith name "." = false ->
  get_subfolders w = (Ok entries, w') ->
  (exists e, In e entries /\ folder e = name)
  /\ (forall e, In e entries -> folder e = name ->
        match spec_summary sub with
        | Some nd =>
            exists text,
              nd = File (Some text)
              /\ e = {| title :=
                          extract_title (universal_newlines text) name;
                        description :=
                          extract_description (universal_newlines text);
                        folder := name |}
        | None =>
            e = {| title := name; description := EmptyString;
                   folder := name |}
        end)
  /\ (spec_summary sub = None ->
      exists evs,
        w' = with_log w evs
        /\ forall p, In (EvRead p) evs -> ~ below (SITE_DIR // name) p).
Proof.
  intros R L D G.
  pose proof (proj2 (qualifies_lookup children name sub) (conj L D)) as Q.
  rewrite (get_subfolders_outcome children w R) in G.
  pose proof (scan_outcome_reads children
                (sort_names (map fst children)) []) as Hr.
  destruct (scan_outcome children (sort_names (map fst children)) [])
    as [r evs] eqn:S.
  cbn [fst snd] in G, Hr. injection G as -> <-.
  split; [|split].
  - pose proof (scan_outcome_folders _ _ _ _ _ S) as F. cbn [map app] in F.
    assert (I : In name (map folder entries)).
    { rewrite F. apply filter_In.
      split; [eapply lookup_in_names; exact L | rewrite Q; reflexivity]. }
    apply in_map_iff in I as (e & E & I). exists e. auto.
  - intros e I E.
    destruct (scan_outcome_entries _ _ _ _ _ S e I)
      as [[] | (n & sub' & evs0 & _ & Q' & O)].
    pose proof (item_outcome_folder _ _ _ _ O) as E'.
    rewrite E in E'. subst n. rewrite Q in Q'. injection Q' as <-.
    pose proof (first_present_spec sub) as P.
    unfold item_outcome in O.
    destruct (first_present sub md_names) as [[md nd]|]; rewrite P.
    + destruct nd as [[text|] | c]; cbn [read_node] in O;
        try discriminate O.
      injection O as <- _. exists text. split; reflexivity.
    + injection O as <- _. reflexivity.
  - intros N. exists evs. split; [reflexivity|].
    intros p I [rest B].
    rewrite Forall_forall in Hr.
    destruct (Hr _ I) as (n & sub' & md & nd & [= ->] & Q' & P).
    unfold SITE_DIR, path_join in B. simpl in B. injection B as -> _.
    rewrite Q in Q'. injection Q' as <-.
    pose proof (first_present_spec sub) as P'. rewrite P in P'. congruence.
Qed.

Lemma scanner_summary_choice_witness :
  exists entries w',
    get_subfolders crlf_world = (Ok entries, w')
    /\ (forall e, In e entries -> folder e = "win" ->
          e = {| title := "T"; description := "body more";
                 folder := "win" |})
    /\ (forall e, In e entries -> folder e = "plain" ->
          e = {| title := "plain"; description := EmptyString;
                 folder := "plain" |})
    /\ (exists evs,
          w' = with_log crlf_world evs
          /\ forall p, In (EvRead p) evs -> ~ below (SITE_DIR // "plain") p).
Proof.
  eexists. eexists. split; [reflexivity|].
  destruct (scanner_summary_choice crlf_world _ _ crlf_children _ "win"
              eq_refl eq_refl eq_refl eq_refl) as (_ & Hd & _).
  destruct (scanner_summary_choice crlf_world _ _ crlf_children _ "plain"
              eq_refl eq_refl eq_refl eq_refl) as (_ & Hp & Hr).
  split; [|split].
  - intros e I E. destruct (Hd e I E) as (text & [= <-] & ->). reflexivity.
  - intros e I E. exact (Hp e I E).
  - exact (Hr eq_refl).
Defined.

(** C9.  When the read of the summary file chosen for some kept folder
    fails, the run raises, the files are as before and the run has only
    read; and every run either raises with the files as before, or has
    finished the scan with reads only and then written the whole page to
    [site/index.html]. *)
Theorem main_all_or_nothing :
  (forall (w : world) (children sub : list (string * node)) (name : string)
          (nd : node) (err : py_error),
      resolve (fs w) SITE_DIR = Some (Dir children) ->
      lookup children name = Some (Dir sub) ->
      startswith name "." = false ->
      spec_summary sub = Some nd ->
      read_node nd = Raise err ->
      exists e evs, main w = (Raise e, with_log w evs) /\ only_reads evs)
  /\ (forall w : world,
         exists evs,
           only_reads evs
           /\ match main w with
              | (Raise _, w') => w' = with_log w evs
              | (Ok _, w') =>
                  exists entries,
                    get_subfolders w = (Ok entries, with_log w evs)
                    /\ resolve (fs w') (SITE_DIR // "index.html")
                       = Some (File (Some (generate_html entries)))
                    /\ log w'
                       = (log w ++ evs
                          ++ [EvWrite (SITE_DIR // "index.html");
                              EvPrint (summary_line entries)])%list
              end).
Proof.
  split.
  - intros w children sub name nd err R L D Sp Rd.
    destruct (main_raises_on_failed_read w children sub name nd err
                R L D Sp Rd) as (e & evs & _ & M & O).
    exists e, evs. split; assumption.
  - intros w. destruct (get_subfolders_world w) as (evs & W & O).
    exists evs. split; [exact O|].
    rewrite main_outcome.
    destruct (get_subfolders w) as [[entries | e] w1]; cbn [snd] in W;
      subst w1; [|reflexivity].
    destruct (store (fs (with_log w evs)) (SITE_DIR // "index.html")
                (generate_html entries)) as [n | e] eqn:St; [|reflexivity].
    exists entries. split; [reflexivity|]. split.
    + cbn [fs]. eapply store_resolve. exact St.
    + cbn [log with_log]. rewrite <- app_assoc. reflexivity.
Qed.

Lemma main_all_or_nothing_witness :
  exists e evs,
    main broken_world = (Raise e, with_log broken_world evs)
    /\ only_reads evs.
Proof.
  apply (proj1 main_all_or_nothing broken_world broken_children
           [("README.md", File None)] "bad" (File None) UnicodeDecodeError);
    reflexivity.
Defined.

(** C10.  The candidate check is [exists]: whenever a kept folder holds a
    directory named [README.md] the scan raises and the run stops with
    nothing written; in the sample tree, where a readable [description.md]
    stands next to it, the scanner picks the directory and the error is
    that of reading a directory. *)
Theorem readme_directory_aborts :
  (forall (w : world) (children sub c : list (string * node))
          (name : string),
      resolve (fs w) SITE_DIR = Some (Dir children) ->
      lookup children name = Some (Dir sub) ->
      startswith name "." = false ->
      lookup sub "README.md" = Some (Dir c) ->
      exists e evs,
        get_subfolders w = (Raise e, with_log w evs)
        /\ main w = (Raise e, with_log w evs)
        /\ only_reads evs)
  /\ (resolve (fs readme_dir_world) (SITE_DIR // "proj" // "README.md")
      = Some (Dir [])
      /\ resolve (fs readme_dir_world)
           (SITE_DIR // "proj" // "description.md")
         = Some (File (Some "# Proj"))
      /\ find_md_file (SITE_DIR // "proj") md_names readme_dir_world
         = (Ok (Some (SITE_DIR // "proj" // "README.md")), readme_dir_world)
      /\ get_subfolders readme_dir_world
         = (Raise IsADirectoryError,
            with_log readme_dir_world
              [EvRead (SITE_DIR // "proj" // "README.md")])
      /\ main readme_dir_world
         = (Raise IsADirectoryError,
            with_log readme_dir_world
              [EvRead (SITE_DIR // "proj" // "README.md")])).
Proof.
  split.
  - intros w children sub c name R L D Rm.
    apply (main_raises_on_failed_read w children sub name (Dir c)
             IsADirectoryError R L D); [|reflexivity].
    unfold spec_summary. rewrite Rm. reflexivity.
  - repeat split.
Qed.

Lemma readme_directory_aborts_witness :
  exists e evs,
    get_subfolders readme_dir_world = (Raise e, with_log readme_dir_world evs)
    /\ main readme_dir_world = (Raise e, with_log readme_dir_world evs)
    /\ only_reads evs.
Proof.
  apply (proj1 readme_directory_aborts readme_dir_world
           [("proj", Dir [("README.md", Dir []);
                          ("description.md", File (Some "# Proj"))])]
           [("README.md", Dir []); ("description.md", File (Some "# Proj"))]
           [] "proj"); reflexivity.
Defined.

(** ** The page *)

Lemma prefix_append (n b : string) : prefix n (n ++ b) = true.
Proof.
  induction n as [|c n IH]; [apply prefix_empty|].
  cbn [append prefix]. destruct (ascii_dec c c); [exact IH | congruence].
Qed.

Lemma contains_skip (n a h : string) :
  contains n h = true -> contains n (a ++ h) = true.
Proof.
  intros H. induction a as [|c a IH]; [exact H|].
  cbn [append contains]. rewrite IH. apply orb_true_r.
Qed.

Lemma contains_unfold (n h : string) :
  contains n h
  = prefix n h
    || match h with
       | EmptyString => false
       | String _ h' => contains n h'
       end.
Proof. destruct h; reflexivity. Qed.

Lemma contains_mid (n a b : string) : contains n (a ++ n ++ b) = true.
Proof.
  apply contains_skip. rewrite contains_unfold, prefix_append. reflexivity.
Qed.

(** A part of a part of the page is a part of the page. *)
Lemma contains_within (n m h a b x y : string) :
  h = a ++ m ++ b -> m = x ++ n ++ y -> contains n h = true.
Proof.
  intros -> ->.
  replace (a ++ (x ++ n ++ y) ++ b) with ((a ++ x) ++ n ++ (y ++ b)).
  - apply contains_mid.
  - rewrite !append_assoc. reflexivity.
Qed.

Lemma fold_left_items (entries : list entry) (init : string) :
  fold_left (fun acc e => acc ++ entry_html e) entries init
  = init ++ items_html entries.
Proof.
  revert init. induction entries as [|e l IH]; intros init;
    cbn [fold_left items_html fold_right].
  - rewrite append_nil_r. reflexivity.
  - rewrite IH, append_assoc. reflexivity.
Qed.

Lemma items_html_app (l1 l2 : list entry) :
  items_html (l1 ++ l2) = items_html l1 ++ items_html l2.
Proof.
  induction l1 as [|e l IH]; [reflexivity|].
  cbn [app items_html fold_right]. fold (items_html (l ++ l2)).
  fold (items_html l). rewrite IH, append_assoc. reflexivity.
Qed.

Lemma generate_html_items (entries : list entry) :
  entries <> [] ->
  generate_html entries = page_head ++ items_html entries ++ page_tail.
Proof.
  intros NE. unfold generate_html. rewrite fold_left_items.
  destruct entries; [congruence | reflexivity].
Qed.

Lemma desc_html_spec (e : entry) :
  desc_html e = match description e with
                | EmptyString => EmptyString
                | _ => paragraph (description e)
                end.
Proof. unfold desc_html. destruct (description e); reflexivity. Qed.

Lemma entry_html_spec (e : entry) :
  entry_html e = (NL ++ "        ") ++ spec_item e ++ NL.
Proof.
  unfold entry_html, spec_item, link_open, heading.
  rewrite desc_html_spec. rewrite !append_assoc. reflexivity.
Qed.

(** The item of each entry stands in the page. *)
Lemma generate_html_item (entries : list entry) (e : entry) :
  In e entries ->
  exists before after,
    generate_html entries = before ++ spec_item e ++ after.
Proof.
  intros I.
  rewrite generate_html_items
    by (destruct entries; [destruct I | discriminate]).
  apply in_split in I as (l1 & l2 & ->).
  rewrite items_html_app. cbn [items_html fold_right].
  fold (items_html l2). rewrite entry_html_spec.
  exists (page_head ++ items_html l1 ++ NL ++ "        "),
         (NL ++ items_html l2 ++ page_tail).
  rewrite !append_assoc. reflexivity.
Qed.

Lemma has_pair_contains (a b : ascii) (s : string) :
  contains (String a (String b EmptyString)) s = has_pair a b s.
Proof.
  induction s as [|x s IH]; [reflexivity|].
  rewrite contains_unfold, IH. cbn [prefix has_pair].
  destruct s as [|y s'].
  - destruct (ascii_dec a x); reflexivity.
  - destruct (ascii_dec a x) as [<- | NE].
    + rewrite Ascii.eqb_refl. cbn [prefix andb].
      destruct (ascii_dec b y) as [<- | NE'].
      * rewrite Ascii.eqb_refl, prefix_empty. reflexivity.
      * rewrite (proj2 (Ascii.eqb_neq y b)) by congruence. reflexivity.
    + rewrite (proj2 (Ascii.eqb_neq x a)) by congruence. reflexivity.
Qed.

Lemma has_pair_cons (a b x : ascii) (s : string) :
  has_pair a b (String x s)
  = (Ascii.eqb x a && starts_with b s) || has_pair a b s.
Proof.
  destruct s as [|y s']; [|reflexivity].
  cbn [has_pair starts_with]. rewrite andb_false_r. reflexivity.
Qed.

Lemma has_pair_append (a b : ascii) (s t : string) :
  has_pair a b (s ++ t)
  = has_pair a b s || (ends_with a s && starts_with b t) || has_pair a b t.
Proof.
  induction s as [|x s IH]; [reflexivity|].
  change (String x s ++ t) with (String x (s ++ t)).
  rewrite !has_pair_cons, IH.
  destruct s as [|y s'].
  - cbn [append has_pair ends_with starts_with].
    rewrite andb_false_r. reflexivity.
  - change (ends_with a (String x (String y s')))
      with (ends_with a (String y s')).
    change (starts_with b (String y s' ++ t)) with (Ascii.eqb y b).
    change (starts_with b (String y s')) with (Ascii.eqb y b).
    rewrite !orb_assoc. reflexivity.
Qed.

Lemma no_char_no_pair (a b : ascii) (s : string) :
  has_char a s = false -> has_pair a b s = false /\ ends_with a s = false.
Proof.
  induction s as [|x s IH]; [auto|].
  cbn [has_char]. intros H. apply orb_false_iff in H as [Hx Hs].
  destruct (IH Hs) as [IH1 IH2].
  rewrite has_pair_cons, Hx, IH1. split; [reflexivity|].
  destruct s as [|y s']; [exact Hx | exact IH2].
Qed.

Lemma spec_item_plain (e : entry) :
  description e = EmptyString ->
  spec_item e = item_a ++ folder e ++ item_b ++ title e ++ item_c.
Proof.
  intros H. unfold spec_item, link_open, heading. rewrite H.
  unfold item_a, item_b, item_c. rewrite !append_assoc. reflexivity.
Qed.

(** ** Claims about the page *)

(** C7.  For each entry the page holds its list item: the link to
    [{folder}/index.html] around the heading with the title and, when the
    description is not empty, the description paragraph, every field as it
    is; an item with an empty description, for a folder and a title without
    [<], holds no paragraph at all; the sample entry gives the three pieces
    of HTML of the specification. *)
Theorem page_lists_entries :
  (forall (entries : list entry) (e : entry),
      In e entries ->
      (exists before after,
          generate_html entries = before ++ spec_item e ++ after)
      /\ contains (link_open (folder e)) (generate_html entries) = true
      /\ contains (heading (title e)) (generate_html entries) = true
      /\ (description e <> EmptyString ->
          contains (paragraph (description e)) (generate_html entries)
          = true))
  /\ (forall e : entry,
         description e = EmptyString ->
         has_char "<" (folder e) = false ->
         has_char "<" (title e) = false ->
         contains "<p" (spec_item e) = false)
  /\ (contains ("href=" ++ dq ++ "proj1/index.html" ++ dq)
        (generate_html [demo_entry]) = true
      /\ contains "<h2>Proj One</h2>" (generate_html [demo_entry]) = true
      /\ contains ("<p class=" ++ dq ++ "description" ++ dq ++ ">A demo.</p>")
           (generate_html [demo_entry]) = true).
Proof.
  split; [|split].
  - intros entries e I.
    destruct (generate_html_item entries e I) as (before & after & E).
    split; [eauto|]. split; [|split].
    + eapply contains_within; [exact E|].
      unfold spec_item.
      instantiate (2 := "<li class=" ++ dq ++ "entry" ++ dq ++ ">" ++ NL
                        ++ "            ").
      rewrite !append_assoc. reflexivity.
    + eapply contains_within; [exact E|].
      unfold spec_item.
      instantiate (2 := "<li class=" ++ dq ++ "entry" ++ dq ++ ">" ++ NL
                        ++ "            " ++ link_open (folder e) ++ NL
                        ++ "                ").
      rewrite !append_assoc. reflexivity.
    + intros D. eapply contains_within; [exact E|].
      unfold spec_item. destruct (description e) as [|c d] eqn:Ed;
        [congruence|].
      instantiate (2 := "<li class=" ++ dq ++ "entry" ++ dq ++ ">" ++ NL
                        ++ "            " ++ link_open (folder e) ++ NL
                        ++ "                " ++ heading (title e) ++ NL
                        ++ "                ").
      rewrite !append_assoc. reflexivity.
  - intros e D F T. rewrite (spec_item_plain e D).
    change "<p" with (String "<" (String "p" EmptyString)).
    rewrite has_pair_contains, !has_pair_append.
    destruct (no_char_no_pair "<" "p" (folder e) F) as [-> ->].
    destruct (no_char_no_pair "<" "p" (title e) T) as [-> ->].
    reflexivity.
  - vm_compute. auto.
Qed.

Lemma page_lists_entries_witness :
  contains (heading "a <b> & c")
    (generate_html
       [demo_entry;
        {| title := "a <b> & c"; description := EmptyString;
           folder := "f2" |}]) = true
  /\ contains "<p"
       (spec_item {| title := "two"; description := EmptyString;
                     folder := "f2" |}) = false.
Proof.
  split.
  - apply (proj1 page_lists_entries
             [demo_entry;
              {| title := "a <b> & c"; description := EmptyString;
                 folder := "f2" |}]
             {| title := "a <b> & c"; description := EmptyString;
                folder := "f2" |}).
    right. left. reflexivity.
  - apply (proj1 (proj2 page_lists_entries)
             {| title := "two"; description := EmptyString;
                folder := "f2" |}); reflexivity.
Defined.

(* ================================================================== *)
(** * Part IV: further properties of the program                        *)
(* ================================================================== *)

(** ** The description is the first paragraph under the first heading *)

Lemma loop_collects (para tail buf : list string) :
  Forall (fun l => is_text l = true) para ->
  paragraph_end tail ->
  (buf ++ para)%list <> [] ->
  description_loop (para ++ tail) true buf = (buf ++ map strip para)%list.
Proof.
  revert buf. induction para as [|l ls IH]; intros buf T E NE.
  - rewrite app_nil_r in NE. simpl map. rewrite ?app_nil_r. simpl app.
    destruct tail as [|stop post]; [reflexivity|].
    simpl app. cbn [description_loop].
    destruct E as [B | H].
    + pose proof (blank_not_heading stop B) as H.
      unfold is_heading in H. rewrite H.
      unfold is_blank in B. apply negb_true_iff in B. rewrite B.
      cbn [andb negb]. destruct buf; [congruence | reflexivity].
    + unfold is_heading in H. rewrite H. reflexivity.
  - inversion T as [|? ? Tl Tls]; subst.
    unfold is_text in Tl. apply andb_prop in Tl as [Th Tb].
    apply negb_true_iff in Th. apply negb_true_iff in Tb.
    unfold is_heading in Th. unfold is_blank in Tb.
    apply negb_false_iff in Tb.
    simpl app. cbn [description_loop]. rewrite Th, Tb. cbn [andb].
    rewrite IH; try assumption.
    + simpl map. rewrite <- app_assoc. reflexivity.
    + destruct buf; discriminate.
Qed.

(** X1.  When, after the first heading and the blank lines under it, the
    text goes on with lines that are neither blank nor headings up to a
    blank line, a heading or the end of the text, the description is these
    lines, each trimmed, joined by single spaces. *)
Theorem description_first_paragraph (content : string)
    (pre blanks para tail : list string) (h : string) :
  split_nl content = (pre ++ h :: blanks ++ para ++ tail)%list ->
  Forall (fun l => is_heading l = false) pre ->
  is_heading h = true ->
  Forall (fun l => is_blank l = true) blanks ->
  para <> [] ->
  Forall (fun l => is_text l = true) para ->
  paragraph_end tail ->
  extract_description content = String.concat " " (map strip para).
Proof.
  intros S Hpre Hh Hb NE Hp Ht.
  unfold extract_description. rewrite S.
  rewrite loop_skips_preamble by assumption.
  cbn [description_loop]. unfold is_heading in Hh. rewrite Hh.
  rewrite loop_skips_blank by assumption.
  rewrite loop_collects by assumption.
  cbn [app]. apply nonempty_join.
Qed.

Lemma description_first_paragraph_witness :
  extract_description
    ("intro" ++ NL ++ "## Guide" ++ NL ++ "   " ++ NL ++ "  first line "
     ++ NL ++ "second" ++ NL ++ "### Next" ++ NL ++ "more")
  = "first line second".
Proof.
  apply (description_first_paragraph _ ["intro"] ["   "]
           ["  first line "; "second"] ["### Next"; "more"] "## Guide").
  - reflexivity.
  - repeat constructor.
  - reflexivity.
  - repeat constructor.
  - discriminate.
  - repeat constructor.
  - right. reflexivity.
Defined.

(** X2.  A text none of whose lines, once trimmed, begins with [#] has the
    empty description, whatever it holds. *)
Theorem description_without_heading (content : string) :
  Forall (fun l => is_heading l = false) (split_nl content) ->
  extract_description content = EmptyString.
Proof.
  intros H. unfold extract_description.
  rewrite <- (app_nil_r (split_nl content)).
  rewrite loop_skips_preamble by assumption. reflexivity.
Qed.

Lemma description_without_heading_witness :
  extract_description ("plain text" ++ NL ++ NL ++ "more text") = EmptyString.
Proof.
  apply description_without_heading. repeat constructor.
Defined.

(** ** The shape of what is extracted *)

Lemma lstrip_fixed (c : ascii) (s : string) :
  isspace c = false -> lstrip (String c s) = String c s.
Proof. intros H. simpl. rewrite H. reflexivity. Qed.

Lemma rstrip_cons (c : ascii) (s : string) :
  rstrip (String c s)
  = match rstrip s with
    | EmptyString => if isspace c then EmptyString else String c EmptyString
    | String c' r => String c (String c' r)
    end.
Proof. reflexivity. Qed.

Lemma rstrip_idem (s : string) : rstrip (rstrip s) = rstrip s.
Proof.
  induction s as [|c s IH]; [reflexivity|].
  rewrite rstrip_cons. destruct (rstrip s) as [|c' r] eqn:E.
  - destruct (isspace c) eqn:S; [reflexivity|].
    rewrite rstrip_cons. cbn [rstrip]. rewrite S. reflexivity.
  - rewrite rstrip_cons, IH. reflexivity.
Qed.

Lemma rstrip_head (c : ascii) (s : string) :
  isspace c = false -> exists r, rstrip (String c s) = String c r.
Proof.
  intros H. cbn [rstrip]. destruct (rstrip s); [|eauto].
  rewrite H. eauto.
Qed.

Lemma strip_tidy (s : string) : tidy (strip s).
Proof.
  unfold tidy, strip. split; [|apply rstrip_idem].
  pose proof (lstrip_head s) as H.
  destruct (lstrip s) as [|c t]; [reflexivity|].
  destruct (rstrip_head c t H) as [r ->]. apply lstrip_fixed. exact H.
Qed.

Lemma tidy_strip (s : string) : tidy s -> strip s = s.
Proof. intros [L R]. unfold strip. rewrite L. exact R. Qed.

Lemma rstrip_no_nl (s : string) : no_nl s = true -> no_nl (rstrip s) = true.
Proof.
  induction s as [|c s IH]; [trivial|].
  rewrite no_nl_cons. intros H. apply andb_prop in H as [H1 H2].
  cbn [rstrip]. specialize (IH H2).
  destruct (rstrip s) as [|c' r].
  - destruct (isspace c); [reflexivity|].
    rewrite no_nl_cons, H1. reflexivity.
  - rewrite no_nl_cons, H1. exact IH.
Qed.

Lemma strip_no_nl (s : string) : no_nl s = true -> no_nl (strip s) = true.
Proof. intros H. apply rstrip_no_nl, lstrip_no_nl, H. Qed.

Lemma no_nl_append (a b : string) :
  no_nl (a ++ b) = no_nl a && no_nl b.
Proof.
  induction a as [|c a IH]; [reflexivity|].
  simpl append. rewrite !no_nl_cons, IH. apply andb_assoc.
Qed.

Lemma rstrip_append (a b : string) :
  rstrip b <> EmptyString -> rstrip (a ++ b) = a ++ rstrip b.
Proof.
  intros NE. induction a as [|c a IH]; [reflexivity|].
  simpl append. cbn [rstrip]. rewrite IH.
  destruct (a ++ rstrip b) eqn:E; [|reflexivity].
  destruct a; simpl in E; congruence.
Qed.

Lemma tidy_head (s : string) :
  tidy s ->
  match s with String c _ => isspace c = false | EmptyString => True end.
Proof.
  intros [L _]. pose proof (lstrip_head s) as H. rewrite L in H.
  destruct s; [exact I | exact H].
Qed.

(** Two buffered pieces joined by a space are tidy again. *)
Lemma tidy_join (a b : string) :
  a <> EmptyString -> tidy a -> b <> EmptyString -> tidy b ->
  tidy (a ++ " " ++ b).
Proof.
  intros Na Ta Nb Tb. split.
  - pose proof (tidy_head a Ta) as H.
    destruct a as [|c a']; [congruence|]. apply lstrip_fixed. exact H.
  - destruct Tb as [_ Rb].
    rewrite rstrip_append.
    + f_equal. change (" " ++ b) with (String " "%char EmptyString ++ b).
      rewrite rstrip_append by congruence. rewrite Rb. reflexivity.
    + change (" " ++ b) with (String " "%char EmptyString ++ b).
      rewrite rstrip_append by congruence. discriminate.
Qed.

Lemma join_buffered (l : list string) :
  l <> [] -> Forall buffered l -> buffered (String.concat " " l).
Proof.
  induction l as [|a l IH]; intros NE F; [congruence|].
  inversion F as [|? ? Ha Hl]; subst.
  destruct l as [|b l'].
  - exact Ha.
  - rewrite concat_cons by discriminate.
    destruct (IH ltac:(discriminate) Hl) as (Nr & Tr & Lr).
    destruct Ha as (Na & Ta & La).
    split; [|split].
    + destruct a; [congruence | discriminate].
    + apply tidy_join; assumption.
    + rewrite !no_nl_append, La, Lr. reflexivity.
Qed.

(** The loop only ever buffers trimmed, non-empty pieces of lines. *)
Lemma loop_buffered (lines : list string) (b : bool) (buf : list string) :
  Forall (fun l => no_nl l = true) lines ->
  Forall buffered buf ->
  Forall buffered (description_loop lines b buf).
Proof.
  revert b buf. induction lines as [|l ls IH]; intros b buf N B; [exact B|].
  inversion N as [|? ? Nl Nls]; subst.
  cbn [description_loop].
  destruct (startswith (strip l) "#").
  - destruct b; [exact B | apply IH; assumption].
  - destruct b; cbn [andb]; [|apply IH; assumption].
    destruct (truthy (strip l)) eqn:T; cbn [negb andb].
    + apply IH; [assumption|]. apply Forall_app. split; [exact B|].
      constructor; [|constructor]. split; [|split].
      * destruct (strip l); [discriminate T | discriminate].
      * apply strip_tidy.
      * apply strip_no_nl. exact Nl.
    + destruct (nonempty buf); [exact B | apply IH; assumption].
Qed.

(** X3.  The description of any text has no line feed in it and neither
    starts nor ends with white space: trimming it changes nothing. *)
Theorem description_is_one_trimmed_line (content : string) :
  no_nl (extract_description content) = true
  /\ strip (extract_description content) = extract_description content.
Proof.
  unfold extract_description.
  pose proof (loop_buffered (split_nl content) false []
                (split_nl_no_nl content) (Forall_nil _)) as B.
  destruct (description_loop (split_nl content) false []) as [|a l] eqn:E.
  - split; reflexivity.
  - cbn [nonempty]. unfold join.
    destruct (join_buffered (a :: l) ltac:(discriminate) B) as (_ & T & N).
    split; [exact N | apply tidy_strip; exact T].
Qed.

Lemma re_plus_inv cs k (s : string) (g : captures) :
  re_plus cs k s = Some g ->
  exists w s' b,
    s = w ++ s' /\ w <> EmptyString
    /\ forallb (cs_matches cs) (list_ascii_of_string w) = true
    /\ k b s' = Some g.
Proof.
  induction s as [|c s IH]; [discriminate|].
  cbn [re_plus]. destruct (cs_matches cs c) eqn:C; [|discriminate].
  destruct (re_plus cs k s) as [g'|] eqn:P.
  - intros [= ->]. destruct (IH eq_refl) as (w & s' & b & -> & _ & W & K).
    exists (String c w), s', b. repeat split; try assumption.
    + discriminate.
    + simpl. rewrite C. exact W.
  - intros K. exists (String c EmptyString), s, (Ascii.eqb c nl).
    repeat split; try assumption.
    + discriminate.
    + simpl. rewrite C. reflexivity.
Qed.

(** Where the pattern matches, the group is a piece of one line. *)
Lemma title_match_inv (b : bool) (s : string) (g0 g : captures) :
  re_match title_re b s g0 = Some g ->
  exists a t rest, s = a ++ t ++ rest /\ g = (t ++ rest, rest)
                   /\ no_nl t = true.
Proof.
  unfold title_re. cbn [re_match]. destruct b; [|discriminate].
  destruct s as [|c s]; [discriminate|].
  destruct (cs_matches (CsChar "#") c); [|discriminate].
  intros H. apply re_plus_inv in H as (w & s1 & b1 & -> & _ & _ & H).
  cbn [re_match] in H.
  apply re_plus_inv in H as (t & rest & b2 & -> & _ & T & H).
  cbn [re_match fst snd] in H.
  exists (String c w), t, rest. split; [reflexivity|].
  split; [|exact T].
  destruct rest as [|c' rest']; [congruence|].
  destruct (Ascii.eqb c' nl); congruence.
Qed.

Lemma title_search_inv (b : bool) (s : string) (g : captures) :
  re_search_from title_re b s = Some g ->
  exists a t rest, s = a ++ t ++ rest /\ g = (t ++ rest, rest)
                   /\ no_nl t = true.
Proof.
  revert b. induction s as [|c s IH]; intros b.
  - cbn [re_search_from].
    destruct (re_match title_re b EmptyString (EmptyString, EmptyString))
      eqn:M; [|discriminate].
    intros [= ->]. eapply title_match_inv. exact M.
  - cbn [re_search_from].
    destruct (re_match title_re b (String c s) (EmptyString, EmptyString))
      eqn:M.
    + intros [= ->]. eapply title_match_inv. exact M.
    + intros H. destruct (IH _ H) as (a & t & rest & -> & G & T).
      exists (String c a), t, rest. auto.
Qed.

(** X4.  The title of any text is either the fallback, when the pattern
    matches nowhere, or the trimmed form of a piece of a single line of the
    text: it has no line feed and no white space at either end. *)
Theorem title_is_fallback_or_trimmed_line (content fallback : string) :
  (re_search title_re content = None
   /\ extract_title content fallback = fallback)
  \/ (exists a t rest,
         content = a ++ t ++ rest /\ no_nl t = true
         /\ extract_title content fallback = strip t
         /\ no_nl (extract_title content fallback) = true
         /\ strip (extract_title content fallback)
            = extract_title content fallback).
Proof.
  unfold extract_title.
  destruct (re_search title_re content) as [g|] eqn:S; [right | left; auto].
  destruct (title_search_inv true content g S) as (a & t & rest & E & -> & T).
  exists a, t, rest. rewrite group1_split.
  split; [exact E|]. split; [exact T|]. split; [reflexivity|].
  split; [apply strip_no_nl; exact T | apply tidy_strip, strip_tidy].
Qed.

(** ** White space after the [#] may run over line ends *)

Lemma all_space_append (a b : string) :
  all_space (a ++ b) = all_space a && all_space b.
Proof.
  induction a as [|c a IH]; [reflexivity|].
  simpl append. rewrite !all_space_cons, IH. apply andb_assoc.
Qed.

Lemma concat_line (l : string) (post : list string) :
  String.concat NL (l :: post) = l ++ after_line post.
Proof.
  destruct post; [simpl; symmetry; apply append_nil_r|].
  apply concat_cons. discriminate.
Qed.

Lemma concat_ws_block (mid : list string) (l : string) (post : list string) :
  String.concat NL (mid ++ l :: post) = ws_block mid ++ l ++ after_line post.
Proof.
  induction mid as [|m ms IH]; [apply concat_line|].
  simpl app. rewrite concat_cons by (destruct ms; discriminate).
  rewrite IH. cbn [ws_block fold_right]. fold (ws_block ms).
  rewrite !append_assoc. reflexivity.
Qed.

Lemma ws_block_space (mid : list string) :
  Forall (fun m => all_space m = true) mid -> all_space (ws_block mid) = true.
Proof.
  induction 1 as [|m ms Hm _ IH]; [reflexivity|].
  cbn [ws_block fold_right]. fold (ws_block ms).
  rewrite !all_space_append, Hm, IH. reflexivity.
Qed.

Lemma after_line_eol (post : list string) : at_eol (after_line post).
Proof.
  destruct post; [left; reflexivity|]. right. eexists. reflexivity.
Qed.

(** X5.  The white space that the pattern asks for after the [#] may hold
    line feeds.  When the first line at which the pattern can start is a
    [#] followed by nothing but white space, the title is taken from the
    next line that is not blank, trimmed, even when that line begins with
    [#] itself. *)
Theorem title_after_bare_hash (content fallback : string)
    (pre mid post : list string) (w l : string) :
  split_nl content = (pre ++ String "#" w :: mid ++ l :: post)%list ->
  Forall (fun p => h1_start p = false) pre ->
  all_space w = true ->
  Forall (fun m => all_space m = true) mid ->
  all_space l = false ->
  extract_title content fallback = strip l.
Proof.
  intros S P W M L.
  pose proof (split_nl_no_nl content) as N. rewrite S in N.
  pose proof (Forall_app_l _ _ _ N) as Npre.
  pose proof (Forall_app_r _ _ _ N) as N1.
  inversion N1 as [|? ? _ N2]; subst.
  pose proof (Forall_app_r _ _ _ N2) as N3.
  inversion N3 as [|? ? Nl _]; subst.
  unfold extract_title, re_search.
  rewrite <- (join_split_nl content) at 1. rewrite S.
  rewrite search_lines_skip by (assumption || discriminate).
  rewrite concat_cons by (destruct mid; discriminate).
  rewrite concat_ws_block.
  destruct (lstrip_split l) as [wl [El Wl]].
  pose proof (lstrip_head l) as Hd.
  assert (E : String "#" w ++ NL ++ ws_block mid ++ l ++ after_line post
              = String "#" ((w ++ NL ++ ws_block mid ++ wl)
                            ++ lstrip l ++ after_line post)).
  { rewrite El at 1. rewrite !append_assoc. reflexivity. }
  rewrite E. cbn [re_search_from].
  rewrite title_match_here.
  - rewrite group1_split. unfold strip. rewrite lstrip_idem. reflexivity.
  - destruct w; discriminate.
  - rewrite !all_space_append, W, Wl, ws_block_space by assumption.
    reflexivity.
  - destruct (lstrip l); [congruence | discriminate].
  - destruct (lstrip l); [exact I | exact Hd].
  - apply lstrip_no_nl. exact Nl.
  - apply after_line_eol.
Qed.

Lemma title_after_bare_hash_witness :
  extract_title ("intro" ++ NL ++ "# " ++ NL ++ "  " ++ NL ++ "# Real title"
                 ++ NL ++ "body") "fb"
  = "# Real title".
Proof.
  apply (title_after_bare_hash _ "fb" ["intro"] ["  "] ["body"] " "
           "# Real title").
  - reflexivity.
  - repeat constructor.
  - reflexivity.
  - repeat constructor.
  - reflexivity.
Defined.

(** ** Sorted lists and listings *)

Lemma sorted_perm_unique (l1 l2 : list string) :
  StronglySorted name_le l1 -> StronglySorted name_le l2 ->
  Permutation l1 l2 -> l1 = l2.
Proof.
  revert l2. induction l1 as [|x l1 IH]; intros l2 S1 S2 P.
  - apply Permutation_nil in P. congruence.
  - destruct l2 as [|y l2];
      [apply Permutation_sym, Permutation_nil in P; discriminate|].
    inversion S1 as [|? ? S1' H1]; subst.
    inversion S2 as [|? ? S2' H2]; subst.
    rewrite Forall_forall in H1, H2.
    assert (x = y).
    { assert (Iy : In y (x :: l1))
        by (eapply Permutation_in; [symmetry; exact P | left; reflexivity]).
      assert (Ix : In x (y :: l2))
        by (eapply Permutation_in; [exact P | left; reflexivity]).
      destruct Iy as [-> | Iy]; [reflexivity|].
      destruct Ix as [-> | Ix]; [reflexivity|].
      apply String.leb_antisym; [apply H1; exact Iy | apply H2; exact Ix]. }
    subst y. f_equal. apply IH; try assumption.
    eapply Permutation_cons_inv. exact P.
Qed.

Lemma filter_perm {A : Type} (f : A -> bool) (l l' : list A) :
  Permutation l l' -> Permutation (filter f l) (filter f l').
Proof.
  induction 1 as [|x l l' P IH|x y l|l l' l'' P1 IH1 P2 IH2]; simpl.
  - constructor.
  - destruct (f x); [constructor|]; exact IH.
  - destruct (f x), (f y); try reflexivity. apply perm_swap.
  - etransitivity; eassumption.
Qed.

(** The sort gives one list for all the orders of a listing. *)
Lemma sort_names_perm_eq (l l' : list string) :
  Permutation l l' -> sort_names l = sort_names l'.
Proof.
  intros P. apply sorted_perm_unique; try apply sort_names_sorted.
  rewrite !sort_names_perm. exact P.
Qed.

Lemma lookup_none_not_in (children : list (string * node)) (x : string) :
  lookup children x = None -> ~ In x (map fst children).
Proof.
  induction children as [|[y m] l IH]; simpl; [tauto|].
  destruct (String.eqb_spec y x) as [-> | NE]; [discriminate|].
  intros L [E | I]; [congruence | exact (IH L I)].
Qed.

Lemma lookup_perm (c1 c2 : list (string * node)) (x : string) :
  NoDup (map fst c1) -> Permutation c1 c2 -> lookup c1 x = lookup c2 x.
Proof.
  intros N P.
  assert (N2 : NoDup (map fst c2))
    by (eapply Permutation_NoDup; [apply Permutation_map; exact P | exact N]).
  destruct (lookup c1 x) as [n|] eqn:L1.
  - symmetry. apply in_lookup; [exact N2|].
    eapply Permutation_in; [exact P | apply lookup_in; exact L1].
  - destruct (lookup c2 x) as [n|] eqn:L2; [|reflexivity].
    exfalso. apply (lookup_none_not_in _ _ L1).
    change x with (fst (x, n)). apply in_map.
    eapply Permutation_in; [symmetry; exact P | apply lookup_in; exact L2].
Qed.

(** ** The scan depends on the kept folders only *)

Lemma scan_outcome_ext (c1 c2 : list (string * node)) (names : list string)
    (acc : list entry) :
  (forall n, qualifies c1 n = qualifies c2 n) ->
  scan_outcome c1 names acc = scan_outcome c2 names acc.
Proof.
  intros Q. revert acc. induction names as [|n rest IH]; intros acc;
    [reflexivity|].
  cbn [scan_outcome]. rewrite Q.
  destruct (qualifies c2 n) as [sub|]; [|apply IH].
  destruct (item_outcome n sub) as [[e | err] evs]; [|reflexivity].
  rewrite IH. reflexivity.
Qed.

Lemma scan_outcome_kept (children : list (string * node))
    (names : list string) (acc : list entry) :
  scan_outcome children (filter (kept children) names) acc
  = scan_outcome children names acc.
Proof.
  revert acc. induction names as [|n rest IH]; intros acc; [reflexivity|].
  cbn [filter scan_outcome]. unfold kept at 1.
  destruct (qualifies children n) as [sub|] eqn:Q; cbn [is_some];
    [|apply IH].
  cbn [scan_outcome]. rewrite Q.
  destruct (item_outcome n sub) as [[e | err] evs]; [|reflexivity].
  rewrite IH. reflexivity.
Qed.

Lemma scan_outcome_length (children : list (string * node))
    (names : list string) (acc : list entry) :
  List.length (snd (scan_outcome children names acc)) <= List.length names.
Proof.
  revert acc. induction names as [|n rest IH]; intros acc; [simpl; lia|].
  cbn [scan_outcome]. destruct (qualifies children n) as [sub|].
  - assert (L : List.length (snd (item_outcome n sub)) <= 1).
    { unfold item_outcome.
      destruct (first_present sub md_names) as [[md nd]|]; simpl; lia. }
    destruct (item_outcome n sub) as [[e | err] evs]; cbn [snd] in *.
    + specialize (IH (acc ++ [e])%list).
      destruct (scan_outcome children rest (acc ++ [e])) as [r evs'].
      cbn [snd] in *. rewrite length_app. simpl. lia.
    + simpl. lia.
  - specialize (IH acc). simpl. lia.
Qed.


(** ** Writing the page among the children of [site/] *)

Lemma lookup_replace_other (children : list (string * node)) (x y : string)
    (n : node) :
  x <> y -> lookup (replace_child children x n) y = lookup children y.
Proof.
  intros NE. induction children as [|[z m] l IH]; [reflexivity|].
  cbn [replace_child lookup].
  destruct (String.eqb_spec z x) as [-> | Nz]; cbn [lookup].
  - rewrite (proj2 (String.eqb_neq x y) NE). reflexivity.
  - rewrite IH. reflexivity.
Qed.

Lemma lookup_app_other (children : list (string * node)) (x y : string)
    (n : node) :
  x <> y -> lookup (children ++ [(x, n)]) y = lookup children y.
Proof.
  intros NE. induction children as [|[z m] l IH]; simpl.
  - rewrite (proj2 (String.eqb_neq x y) NE). reflexivity.
  - rewrite IH. reflexivity.
Qed.

Lemma replace_child_names (children : list (string * node)) (x : string)
    (n : node) :
  map fst (replace_child children x n) = map fst children.
Proof.
  induction children as [|[z m] l IH]; [reflexivity|].
  cbn [replace_child]. destruct (String.eqb_spec z x) as [-> | Nz];
    cbn [map fst]; [reflexivity | rewrite IH; reflexivity].
Qed.

Lemma replace_child_same (children : list (string * node)) (x : string)
    (n : node) :
  lookup children x = Some n -> replace_child children x n = children.
Proof.
  induction children as [|[z m] l IH]; [reflexivity|].
  cbn [replace_child lookup].
  destruct (String.eqb_spec z x) as [-> | Nz].
  - intros [= ->]. reflexivity.
  - intros L. rewrite IH by exact L. reflexivity.
Qed.

(** Writing into a file the text it holds changes nothing. *)
Lemma store_same (p : path) (n : node) (text : string) :
  resolve n p = Some (File (Some text)) -> store n p text = Ok n.
Proof.
  revert n. induction p as [|x p IH]; intros n.
  - simpl. intros [= ->]. reflexivity.
  - simpl. destruct n as [d | children]; [discriminate|].
    destruct (lookup children x) as [m|] eqn:L; [|discriminate].
    intros R. rewrite (IH m R). rewrite (replace_child_same _ _ _ L).
    reflexivity.
Qed.

Lemma with_index_lookup (children : list (string * node)) (text x : string) :
  lookup (with_index children text) x
  = if String.eqb "index.html" x then Some (File (Some text))
    else lookup children x.
Proof.
  unfold with_index.
  destruct (String.eqb_spec "index.html" x) as [<- | NE].
  - destruct (lookup children "index.html") eqn:L.
    + eapply lookup_replace_child. exact L.
    + apply lookup_app_new. exact L.
  - destruct (lookup children "index.html").
    + apply lookup_replace_other. exact NE.
    + apply lookup_app_other. exact NE.
Qed.

Lemma with_index_names (children : list (string * node)) (text : string) :
  exists extra,
    map fst (with_index children text) = (map fst children ++ extra)%list
    /\ Forall (fun x => x = "index.html") extra.
Proof.
  unfold with_index. destruct (lookup children "index.html").
  - exists []. rewrite replace_child_names, app_nil_r.
    split; [reflexivity | constructor].
  - exists ["index.html"]. rewrite map_app. split; [reflexivity|].
    repeat constructor.
Qed.

(** The write of the page when [site/] is a directory. *)
Lemma store_site (n : node) (children : list (string * node))
    (text : string) :
  resolve n SITE_DIR = Some (Dir children) ->
  exists rootch,
    n = Dir rootch
    /\ lookup rootch "site" = Some (Dir children)
    /\ store n index_path text
       = match lookup children "index.html" with
         | Some (Dir _) => Raise IsADirectoryError
         | _ =>
             Ok (Dir (replace_child rootch "site"
                        (Dir (with_index children text))))
         end.
Proof.
  intros R. unfold SITE_DIR in R. simpl in R.
  destruct n as [d | rootch]; [discriminate|].
  destruct (lookup rootch "site") as [m|] eqn:L; [|discriminate].
  injection R as ->. exists rootch. split; [reflexivity|].
  split; [exact L|].
  unfold index_path, SITE_DIR, path_join, with_index. simpl. rewrite L.
  destruct (lookup children "index.html") as [[d | c]|]; reflexivity.
Qed.

(** The page does not count as a folder, before or after it is written. *)
Lemma with_index_qualifies (children : list (string * node))
    (text x : string) :
  (forall c, lookup children "index.html" <> Some (Dir c)) ->
  qualifies (with_index children text) x = qualifies children x.
Proof.
  intros ND. unfold qualifies. rewrite with_index_lookup.
  destruct (String.eqb_spec "index.html" x) as [<- | NE]; [|reflexivity].
  destruct (lookup children "index.html") as [[d | c]|] eqn:L;
    try reflexivity.
  exfalso. exact (ND c eq_refl).
Qed.

Lemma kept_names_with_index (children : list (string * node))
    (text : string) :
  (forall c, lookup children "index.html" <> Some (Dir c)) ->
  filter (kept children) (sort_names (map fst (with_index children text)))
  = filter (kept children) (sort_names (map fst children)).
Proof.
  intros ND.
  apply sorted_perm_unique;
    try (apply filter_sorted, sort_names_sorted).
  destruct (with_index_names children text) as (extra & -> & X).
  etransitivity; [apply filter_perm, sort_names_perm|].
  etransitivity; [|apply filter_perm; symmetry; apply sort_names_perm].
  rewrite filter_app.
  assert (E : filter (kept children) extra = []).
  { induction X as [|x l -> _ IH]; [reflexivity|].
    cbn [filter]. rewrite IH. unfold kept, qualifies.
    destruct (lookup children "index.html") as [[d | c]|] eqn:L;
      try reflexivity.
    exfalso. exact (ND c eq_refl). }
  rewrite E, app_nil_r. reflexivity.
Qed.

(** ** The scanner and the run, further *)

(** X6.  The scanner changes no file, and all it reads are summary files:
    each read is of the first present of the three candidate names in a
    child directory of [site/] whose name does not begin with a dot, and
    there are no more reads than [site/] has children.  Nothing is read in
    hidden directories, in plain files or deeper down. *)
Theorem scanner_only_reads_summaries (w : world) :
  exists evs,
    snd (get_subfolders w) = with_log w evs
    /\ (forall ev, In ev evs ->
          exists children n sub md nd,
            resolve (fs w) SITE_DIR = Some (Dir children)
            /\ ev = EvRead (SITE_DIR // n // md)
            /\ lookup children n = Some (Dir sub)
            /\ startswith n "." = false
            /\ In md md_names
            /\ lookup sub md = Some nd
            /\ spec_summary sub = Some nd)
    /\ (forall children,
          resolve (fs w) SITE_DIR = Some (Dir children) ->
          List.length evs <= List.length children).
Proof.
  destruct (resolve (fs w) SITE_DIR) as [[d | children]|] eqn:R.
  - exists []. split; [|split].
    + unfold get_subfolders, bind, path_exists, iterdir. rewrite R.
      cbn [is_some negb]. rewrite R. cbn [snd]. symmetry. apply with_log_nil.
    + intros ev [].
    + discriminate.
  - rewrite (get_subfolders_outcome children w R). cbn [snd].
    eexists. split; [reflexivity|]. split.
    + intros ev I.
      pose proof (scan_outcome_reads children
                    (sort_names (map fst children)) []) as F.
      rewrite Forall_forall in F.
      destruct (F ev I) as (n & sub & md & nd & -> & Q & P).
      apply qualifies_lookup in Q as [L D].
      destruct (first_present_lookup _ _ _ _ P) as [Im Lm].
      pose proof (first_present_spec sub) as Sp. rewrite P in Sp.
      exists children, n, sub, md, nd. auto 10.
    + intros c [= <-].
      etransitivity; [apply scan_outcome_length|].
      rewrite (Permutation_length (sort_names_perm _)), length_map.
      reflexivity.
  - rewrite (get_subfolders_missing w R). exists []. cbn [snd].
    split; [symmetry; apply with_log_nil|]. split; [intros ev []|].
    discriminate.
Qed.

Lemma scanner_only_reads_summaries_witness :
  exists evs,
    snd (get_subfolders docs_world) = with_log docs_world evs
    /\ List.length evs <= 2.
Proof.
  destruct (scanner_only_reads_summaries docs_world) as (evs & E & _ & L).
  exists evs. split; [exact E | exact (L docs_children eq_refl)].
Defined.

Lemma main_ok_only_if (w w' : world) :
  main w = (Ok tt, w') ->
  exists children,
    resolve (fs w) SITE_DIR = Some (Dir children)
    /\ summaries_readable children
    /\ (forall c, lookup children "index.html" <> Some (Dir c)).
Proof.
  intros M.
  destruct (resolve (fs w) SITE_DIR) as [[d | children]|] eqn:R.
  - exfalso. rewrite main_outcome in M.
    unfold get_subfolders, bind, path_exists, iterdir in M. rewrite R in M.
    cbn [is_some negb] in M. rewrite R in M. discriminate.
  - exists children. split; [reflexivity|]. split.
    + intros name sub nd L D Sp.
      destruct nd as [[text|] | c]; [eauto | exfalso | exfalso].
      * destruct (main_raises_on_failed_read w children sub name
                     (File None) UnicodeDecodeError R L D Sp eq_refl)
           as (e & evs & _ & M' & _). congruence.
      * destruct (main_raises_on_failed_read w children sub name
                     (Dir c) IsADirectoryError R L D Sp eq_refl)
           as (e & evs & _ & M' & _). congruence.
    + intros c L. rewrite main_outcome in M.
      destruct (get_subfolders_world w) as (evs & W & _).
      destruct (get_subfolders w) as [[entries | e] w1]; [|discriminate].
      cbn [snd] in W. subst w1. cbn [fs with_log] in M.
      destruct (store_site (fs w) children (generate_html entries) R)
        as (rootch & _ & _ & St).
      unfold index_path in St. rewrite St, L in M. discriminate.
  - exfalso. rewrite main_outcome, (get_subfolders_missing w R) in M.
    rewrite (store_missing_site (fs w) _ _ R) in M. discriminate.
Qed.

(** X7.  A run that succeeds had [site] a directory, every kept folder
    with a summary file had one that reads as text, and [site/index.html]
    was not a directory.  When [site/index.html] is a directory the run
    raises with reads only behind it and nothing written, and the error is
    that of writing to a directory whenever the scan itself went well. *)
Theorem main_success_conditions :
  (forall w w' : world,
      main w = (Ok tt, w') ->
      exists children,
        resolve (fs w) SITE_DIR = Some (Dir children)
        /\ summaries_readable children
        /\ (forall c, lookup children "index.html" <> Some (Dir c)))
  /\ (forall (w : world) (children c : list (string * node)),
         resolve (fs w) SITE_DIR = Some (Dir children) ->
         lookup children "index.html" = Some (Dir c) ->
         exists e evs,
           main w = (Raise e, with_log w evs)
           /\ only_reads evs
           /\ (forall entries,
                  fst (get_subfolders w) = Ok entries ->
                  e = IsADirectoryError)).
Proof.
  split.
  - intros w w' M. eapply main_ok_only_if. exact M.
  - intros w children c R L.
    destruct (get_subfolders_world w) as (evs & W & O).
    destruct (store_site (fs w) children
                (generate_html
                   match fst (get_subfolders w) with
                   | Ok entries => entries
                   | Raise _ => []
                   end) R) as (rootch & _ & _ & St).
    unfold index_path in St. rewrite L in St.
    rewrite main_outcome.
    destruct (get_subfolders w) as [[entries | e] w1]; cbn [fst snd] in *;
      subst w1.
    + cbn [fs with_log]. rewrite St.
      exists IsADirectoryError, evs. auto.
    + exists e, evs. split; [reflexivity|]. split; [exact O|].
      intros entries [=].
Qed.

Lemma main_success_conditions_witness :
  (exists children,
      resolve (fs docs_world) SITE_DIR = Some (Dir children)
      /\ summaries_readable children
      /\ (forall c, lookup children "index.html" <> Some (Dir c)))
  /\ (exists e evs,
         main index_dir_world = (Raise e, with_log index_dir_world evs)
         /\ only_reads evs
         /\ (forall entries,
                fst (get_subfolders index_dir_world) = Ok entries ->
                e = IsADirectoryError)).
Proof.
  split.
  - apply (proj1 main_success_conditions docs_world (snd (main docs_world))).
    reflexivity.
  - apply (proj2 main_success_conditions index_dir_world
             [("a", Dir []); ("index.html", Dir [])] []); reflexivity.
Defined.

(** What a run that succeeded has done. *)
Lemma main_ok_inv (w w1 : world) :
  main w = (Ok tt, w1) ->
  exists children rootch entries evs,
    resolve (fs w) SITE_DIR = Some (Dir children)
    /\ lookup rootch "site" = Some (Dir children)
    /\ (forall c, lookup children "index.html" <> Some (Dir c))
    /\ scan_outcome children (sort_names (map fst children)) []
       = (Ok entries, evs)
    /\ w1 = {| fs := Dir (replace_child rootch "site"
                            (Dir (with_index children
                                    (generate_html entries))));
               log := (log w ++ evs
                       ++ [EvWrite index_path;
                           EvPrint (summary_line entries)])%list |}.
Proof.
  intros M.
  destruct (main_ok_only_if w w1 M) as (children & R & _ & ND).
  rewrite main_outcome, (get_subfolders_outcome children w R) in M.
  destruct (scan_outcome children (sort_names (map fst children)) [])
    as [[entries | e] evs] eqn:S; cbn [fst snd] in M; [|discriminate].
  cbn [fs with_log] in M.
  destruct (store_site (fs w) children (generate_html entries) R)
    as (rootch & _ & L & St).
  unfold index_path in St. rewrite St in M.
  exists children, rootch, entries, evs.
  split; [exact R|]. split; [exact L|]. split; [exact ND|].
  split; [exact S|].
  destruct (lookup children "index.html") as [[d | c]|] eqn:Li;
    try (injection M as <-; cbn [log]; rewrite <- app_assoc; reflexivity).
  exfalso. exact (ND c eq_refl).
Qed.

(** X8.  Running the program again on the tree a successful run left
    succeeds too, finds the same entries and leaves every file as it is:
    the page it writes is the page that is there. *)
Theorem main_twice_same_files (w w1 : world) :
  main w = (Ok tt, w1) ->
  exists entries evs,
    fst (get_subfolders w) = Ok entries
    /\ fst (get_subfolders w1) = Ok entries
    /\ resolve (fs w1) index_path = Some (File (Some (generate_html entries)))
    /\ only_reads evs
    /\ main w1
       = (Ok tt,
          {| fs := fs w1;
             log := (log w1 ++ evs
                     ++ [EvWrite index_path;
                         EvPrint (summary_line entries)])%list |}).
Proof.
  intros M.
  destruct (main_ok_inv w w1 M)
    as (children & rootch & entries & evs & R & L & ND & S & ->).
  set (children' := with_index children (generate_html entries)).
  set (w1 := {| fs := Dir (replace_child rootch "site" (Dir children'));
                log := (log w ++ evs
                        ++ [EvWrite index_path;
                            EvPrint (summary_line entries)])%list |}).
  assert (R1 : resolve (fs w1) SITE_DIR = Some (Dir children')).
  { unfold w1, SITE_DIR. simpl.
    rewrite (lookup_replace_child rootch "site" (Dir children') _ L).
    reflexivity. }
  assert (S1 : scan_outcome children' (sort_names (map fst children')) []
               = (Ok entries, evs)).
  { rewrite (scan_outcome_ext children' children)
      by (intros n; apply with_index_qualifies; exact ND).
    rewrite <- scan_outcome_kept. unfold children'.
    rewrite kept_names_with_index by exact ND.
    rewrite scan_outcome_kept. exact S. }
  assert (Ri : resolve (fs w1) index_path
               = Some (File (Some (generate_html entries)))).
  { unfold index_path. rewrite resolve_snoc, R1. unfold children'.
    rewrite with_index_lookup. reflexivity. }
  exists entries, evs.
  split; [rewrite (get_subfolders_outcome children w R), S; reflexivity|].
  split; [rewrite (get_subfolders_outcome children' w1 R1), S1; reflexivity|].
  split; [exact Ri|].
  split.
  { pose proof (scan_outcome_only_reads children
                  (sort_names (map fst children)) []) as O.
    rewrite S in O. exact O. }
  rewrite main_outcome, (get_subfolders_outcome children' w1 R1), S1.
  cbn [fst snd]. cbn [fs with_log].
  fold index_path. rewrite (store_same _ _ _ Ri).
  unfold with_log. cbn [log]. rewrite <- app_assoc. reflexivity.
Qed.

Lemma main_twice_same_files_witness :
  exists w1 w2,
    main docs_world = (Ok tt, w1)
    /\ main w1 = (Ok tt, w2)
    /\ fs w2 = fs w1.
Proof.
  assert (M : main docs_world = (Ok tt, snd (main docs_world)))
    by reflexivity.
  destruct (main_twice_same_files docs_world _ M)
    as (entries & evs & _ & _ & _ & _ & M2).
  eexists. eexists. split; [exact M|]. split; [exact M2 | reflexivity].
Defined.

(** X10.  The order in which the operating system lists [site/] does not
    matter: two trees whose [site/] hold the same children, in any order,
    give the same entries, and with them the same page. *)
Theorem listing_order_irrelevant (w1 w2 : world)
    (c1 c2 : list (string * node)) :
  resolve (fs w1) SITE_DIR = Some (Dir c1) ->
  resolve (fs w2) SITE_DIR = Some (Dir c2) ->
  NoDup (map fst c1) ->
  Permutation c1 c2 ->
  fst (get_subfolders w1) = fst (get_subfolders w2).
Proof.
  intros R1 R2 N P.
  rewrite (get_subfolders_outcome c1 w1 R1), (get_subfolders_outcome c2 w2 R2).
  cbn [fst].
  rewrite (sort_names_perm_eq (map fst c1) (map fst c2))
    by (apply Permutation_map; exact P).
  rewrite (scan_outcome_ext c1 c2); [reflexivity|].
  intros n. unfold qualifies. rewrite (lookup_perm c1 c2 n N P). reflexivity.
Qed.

Lemma listing_order_irrelevant_witness :
  fst (get_subfolders mixed_world)
  = fst (get_subfolders
           {| fs := Dir [("site", Dir (rev mixed_children))]; log := [] |}).
Proof.
  apply (listing_order_irrelevant mixed_world
           {| fs := Dir [("site", Dir (rev mixed_children))]; log := [] |}
           mixed_children (rev mixed_children) eq_refl eq_refl).
  - repeat constructor; simpl; intros H;
      repeat (destruct H as [H | H]; try discriminate H); exact H.
  - apply Permutation_rev.
Defined.

(** ** From the tree to the page *)

Lemma page_contains_link (entries : list entry) (e : entry) :
  In e entries ->
  contains (link_open (folder e)) (generate_html entries) = true.
Proof.
  intros I. destruct (generate_html_item entries e I) as (a & b & E).
  eapply contains_within; [exact E|]. unfold spec_item.
  instantiate (2 := "<li class=" ++ dq ++ "entry" ++ dq ++ ">" ++ NL
                    ++ "            ").
  rewrite !append_assoc. reflexivity.
Qed.

Lemma kept_count (children : list (string * node)) (entries : list entry)
    (evs : list event) :
  scan_outcome children (sort_names (map fst children)) [] = (Ok entries, evs)
  -> List.length entries
     = List.length (filter (kept children) (map fst children)).
Proof.
  intros S. rewrite <- (length_map folder).
  rewrite (scan_outcome_folders _ _ _ _ _ S). cbn [map app].
  apply Permutation_length. apply filter_perm. apply sort_names_perm.
Qed.

(** The page a successful run leaves is the page of the entries it found. *)
Lemma main_ok_page (w w1 : world) (children : list (string * node)) :
  main w = (Ok tt, w1) ->
  resolve (fs w) SITE_DIR = Some (Dir children) ->
  exists entries evs,
    scan_outcome children (sort_names (map fst children)) []
    = (Ok entries, evs)
    /\ resolve (fs w1) index_path = Some (File (Some (generate_html entries))).
Proof.
  intros M R.
  destruct (main_ok_inv w w1 M)
    as (children' & rootch & entries & evs & R' & L & _ & S & ->).
  rewrite R in R'. injection R' as <-.
  exists entries, evs. split; [exact S|].
  unfold index_path. rewrite resolve_snoc. cbn [fs].
  unfold SITE_DIR. simpl.
  rewrite (lookup_replace_child rootch "site" _ _ L).
  apply with_index_lookup.
Qed.

(** X9.  After a run that succeeded, [site/index.html] holds a page with a
    link to [{name}/index.html] for every child directory [name] of
    [site/] whose name does not begin with a dot. *)
Theorem written_page_links_every_folder (w w1 : world)
    (children sub : list (string * node)) (name : string) :
  main w = (Ok tt, w1) ->
  resolve (fs w) SITE_DIR = Some (Dir children) ->
  lookup children name = Some (Dir sub) ->
  startswith name "." = false ->
  exists page,
    resolve (fs w1) index_path = Some (File (Some page))
    /\ contains (link_open name) page = true.
Proof.
  intros M R L D.
  destruct (main_ok_page w w1 children M R) as (entries & evs & S & Ri).
  exists (generate_html entries). split; [exact Ri|].
  assert (I : In name (map folder entries)).
  { rewrite (scan_outcome_folders _ _ _ _ _ S). cbn [map app].
    apply filter_In. split; [eapply lookup_in_names; exact L|].
    rewrite (proj2 (qualifies_lookup children name sub) (conj L D)).
    reflexivity. }
  apply in_map_iff in I as (e & <- & I).
  apply page_contains_link. exact I.
Qed.

Lemma written_page_links_every_folder_witness :
  exists page,
    resolve (fs (snd (main docs_world))) index_path = Some (File (Some page))
    /\ contains (link_open "plain") page = true.
Proof.
  apply (written_page_links_every_folder docs_world _ docs_children
           [("notes.txt", File (Some "n"))] "plain"); reflexivity.
Defined.

(** X11.  The line a successful run prints last gives the number of child
    directories of [site/] whose name does not begin with a dot, and the
    only write of the run, right before it, is that of the page. *)
Theorem main_reports_folder_count (w w1 : world)
    (children : list (string * node)) :
  main w = (Ok tt, w1) ->
  resolve (fs w) SITE_DIR = Some (Dir children) ->
  exists evs,
    only_reads evs
    /\ log w1
       = (log w ++ evs
          ++ [EvWrite index_path;
              EvPrint ("Generated site/index.html with "
                       ++ str_of_nat
                            (List.length
                               (filter (kept children) (map fst children)))
                       ++ " entries")])%list.
Proof.
  intros M R.
  destruct (main_ok_inv w w1 M)
    as (children' & rootch & entries & evs & R' & _ & _ & S & ->).
  rewrite R in R'. injection R' as <-.
  exists evs. split.
  - pose proof (scan_outcome_only_reads children
                  (sort_names (map fst children)) []) as O.
    rewrite S in O. exact O.
  - cbn [log]. unfold summary_line. rewrite (kept_count _ _ _ S).
    reflexivity.
Qed.

Lemma main_reports_folder_count_witness :
  exists evs,
    only_reads evs
    /\ log (snd (main mixed_world))
       = (evs ++ [EvWrite index_path;
                  EvPrint "Generated site/index.html with 2 entries"])%list.
Proof.
  destruct (main_reports_folder_count mixed_world (snd (main mixed_world))
              mixed_children eq_refl eq_refl) as (evs & O & E).
  exists evs. split; [exact O | exact E].
Defined.

Lemma filter_none {A : Type} (f : A -> bool) (l : list A) :
  (forall x, In x l -> f x = false) -> filter f l = [].
Proof.
  induction l as [|x l IH]; intros H; [reflexivity|].
  cbn [filter]. rewrite (H x (or_introl eq_refl)).
  apply IH. intros y I. apply H. right. exact I.
Qed.

(** X12.  When [site/] is a directory none of whose children is kept (and
    [site/index.html] is not a directory), the run succeeds without reading
    anything and writes the placeholder page. *)
Theorem empty_site_gets_placeholder (w : world)
    (children : list (string * node)) :
  resolve (fs w) SITE_DIR = Some (Dir children) ->
  (forall name, In name (map fst children) -> kept children name = false) ->
  (forall c, lookup children "index.html" <> Some (Dir c)) ->
  exists w1,
    main w = (Ok tt, w1)
    /\ resolve (fs w1) index_path = Some (File (Some (generate_html [])))
    /\ contains "No content yet." (generate_html []) = true
    /\ log w1
       = (log w ++ [EvWrite index_path;
                    EvPrint "Generated site/index.html with 0 entries"])%list.
Proof.
  intros R K ND.
  assert (S : scan_outcome children (sort_names (map fst children)) []
              = (Ok [], [])).
  { rewrite <- scan_outcome_kept.
    replace (filter (kept children) (sort_names (map fst children)))
      with (@nil string); [reflexivity|].
    symmetry. apply filter_none. intros x I. apply K.
    eapply Permutation_in; [apply sort_names_perm | exact I]. }
  destruct (store_site (fs w) children (generate_html []) R)
    as (rootch & _ & L & St).
  assert (St' : store (fs w) index_path (generate_html [])
                = Ok (Dir (replace_child rootch "site"
                             (Dir (with_index children (generate_html [])))))).
  { rewrite St. destruct (lookup children "index.html") as [[d | c]|] eqn:Li;
      try reflexivity. exfalso. exact (ND c eq_refl). }
  eexists. split; [|split; [|split]].
  - rewrite main_outcome, (get_subfolders_outcome children w R), S.
    cbn [fst snd]. rewrite with_log_nil. fold index_path. rewrite St'.
    reflexivity.
  - cbn [fs]. eapply store_resolve. exact St'.
  - vm_compute. reflexivity.
  - cbn [log]. reflexivity.
Qed.

Lemma empty_site_gets_placeholder_witness :
  exists w1,
    main {| fs := Dir [("site", Dir [(".git", Dir []);
                                    ("notes.txt", File (Some "n"))])];
            log := [] |} = (Ok tt, w1)
    /\ resolve (fs w1) index_path = Some (File (Some (generate_html []))).
Proof.
  destruct (empty_site_gets_placeholder
              {| fs := Dir [("site", Dir [(".git", Dir []);
                                          ("notes.txt", File (Some "n"))])];
                 log := [] |}
              [(".git", Dir []); ("notes.txt", File (Some "n"))] eq_refl)
    as (w1 & M & P & _).
  - intros name [<- | [<- | []]]; reflexivity.
  - intros c L. discriminate L.
  - exists w1. split; [exact M | exact P].
Defined.

(** ** parse_markdown as a whole *)

Lemma hash_line_is_heading (s : string) : is_heading (String "#" s) = true.
Proof.
  unfold is_heading, strip. rewrite lstrip_fixed by reflexivity.
  destruct (rstrip_head "#" s eq_refl) as [r ->].
  rewrite startswith_hash. reflexivity.
Qed.

Lemma not_heading_no_h1 (l : string) :
  is_heading l = false -> h1_start l = false.
Proof.
  intros H. apply no_hash_no_h1. rewrite startswith_hash.
  destruct l as [|a l']; [reflexivity|].
  destruct (Ascii.eqb_spec a "#") as [-> | NE]; [|reflexivity].
  rewrite hash_line_is_heading in H. discriminate.
Qed.

(** X13.  For a text whose first heading is a line [#], white space and a
    title, followed after blank lines by a paragraph that a blank line, a
    heading or the end of the text closes, the result holds the title
    trimmed and the lines of the paragraph, trimmed and joined by single
    spaces; the fallback is not used. *)
Theorem parse_title_and_paragraph (content fallback : string)
    (pre blanks para tail : list string) (c : ascii) (r : string) :
  split_nl content
  = (pre ++ String "#" (String c r) :: blanks ++ para ++ tail)%list ->
  Forall (fun l => is_heading l = false) pre ->
  isspace c = true -> all_space r = false ->
  Forall (fun l => is_blank l = true) blanks ->
  para <> [] ->
  Forall (fun l => is_text l = true) para ->
  paragraph_end tail ->
  parse_content content fallback
  = {| info_title := strip r;
       info_description := String.concat " " (map strip para) |}.
Proof.
  intros S Hpre C A Hb NE Hp Ht. unfold parse_content. f_equal.
  - eapply title_of_h1_line; try eassumption.
    eapply Forall_impl; [|exact Hpre]. apply not_heading_no_h1.
  - unfold extract_description. rewrite S.
    rewrite loop_skips_preamble by assumption.
    cbn [description_loop].
    pose proof (hash_line_is_heading (String c r)) as Hh.
    unfold is_heading in Hh. rewrite Hh.
    rewrite loop_skips_blank by assumption.
    rewrite loop_collects by assumption.
    cbn [app]. apply nonempty_join.
Qed.

Lemma parse_title_and_paragraph_witness :
  parse_content
    ("# My project " ++ NL ++ NL ++ "It does" ++ NL ++ " things." ++ NL
     ++ NL ++ "## Usage") "folder"
  = {| info_title := "My project";
       info_description := "It does things." |}.
Proof.
  apply (parse_title_and_paragraph _ "folder" [] [EmptyString]
           ["It does"; " things."] [EmptyString; "## Usage"] " "
           "My project ").
  - reflexivity.
  - constructor.
  - reflexivity.
  - reflexivity.
  - repeat constructor.
  - discriminate.
  - repeat constructor.
  - left. reflexivity.
Defined.

(** X14.  The title and the description do not look for headings in the
    same way.  In a text where no line is a lone [#] or begins with [#]
    and white space, a line that once trimmed begins with [#] (a heading
    of a lower level, an indented heading, a tag) still opens the
    description: the title is the fallback and the description is the
    paragraph under that line. *)
Theorem fallback_title_with_description (content fallback : string)
    (pre blanks para tail : list string) (h : string) :
  split_nl content = (pre ++ h :: blanks ++ para ++ tail)%list ->
  Forall (fun l => h1_start l = false) (split_nl content) ->
  Forall (fun l => is_heading l = false) pre ->
  is_heading h = true ->
  Forall (fun l => is_blank l = true) blanks ->
  para <> [] ->
  Forall (fun l => is_text l = true) para ->
  paragraph_end tail ->
  parse_content content fallback
  = {| info_title := fallback;
       info_description := String.concat " " (map strip para) |}.
Proof.
  intros S H1 Hpre Hh Hb NE Hp Ht. unfold parse_content. f_equal.
  - apply title_is_fallback. exact H1.
  - unfold extract_description. rewrite S.
    rewrite loop_skips_preamble by assumption.
    cbn [description_loop]. unfold is_heading in Hh. rewrite Hh.
    rewrite loop_skips_blank by assumption.
    rewrite loop_collects by assumption.
    cbn [app]. apply nonempty_join.
Qed.

Lemma fallback_title_with_description_witness :
  parse_content ("## Setup" ++ NL ++ "Run it." ++ NL ++ "#tag") "folder"
  = {| info_title := "folder"; info_description := "Run it." |}.
Proof.
  apply (fallback_title_with_description _ "folder" [] [] ["Run it."]
           ["#tag"] "## Setup").
  - reflexivity.
  - repeat constructor.
  - constructor.
  - reflexivity.
  - constructor.
  - discriminate.
  - repeat constructor.
  - right. reflexivity.
Defined.
